(** * Leads / POC downloads server: a shallow embedding and its properties

    The development follows the two source files of the repository:
    the upload route (windowed limit, phone enrichment, CSV export and
    bucket retention) and the two paginated bulk exports.

    JavaScript values are an inductive type; strings are byte strings
    ([string] is the UTF-8 encoding of the JavaScript string); objects
    are association lists in property order; the external services
    (lookup API, object storage, datastore) are oracles passed as
    arguments, and the effects of the handlers are threaded explicitly. *)

From Stdlib Require Import ZArith Ascii String List Bool Lia.
From Stdlib Require Import Sorting.Sorted Sorting.Permutation.
From stdpp Require Import base tactics option list strings pretty sorting.

Local Set Warnings "-register-all".
Local Open Scope string_scope.
Local Open Scope list_scope.
Local Open Scope Z_scope.

(** ** JavaScript values *)

Module JS.

(** A number is NaN, an infinity, or the double nearest to a decimal
    literal [mant * 10 ^ exp], which covers every number of a JSON body and
    every integer. *)
Inductive JSNumber : Type :=
  | NaN
  | Inf (negative : bool)
  | Dec (mant : Z) (exp : Z).

Inductive JSValue : Type :=
  | JUndefined
  | JNull
  | JBool (b : bool)
  | JNum (n : JSNumber)
  | JStr (s : string)
  | JArr (items : list JSValue)
  | JObj (props : list (string * JSValue)).

(** An object: its own enumerable properties in property order. *)
Definition Obj : Type := list (string * JSValue).

Definition int (z : Z) : JSValue := JNum (Dec z 0).

(** [typeof v === "string"] *)
Definition is_string (v : JSValue) : bool :=
  match v with JStr _ => true | _ => false end.

(** The double nearest to [mant * 10 ^ exp] is zero when [mant] is zero,
    and when the magnitude is at most [2 ^ -1075], half of the least
    positive double (the tie goes to the even neighbour, which is zero). *)
Definition is_zero (mant exp : Z) : bool :=
  (mant =? 0) || ((exp <? 0) && (Z.abs mant * 2 ^ 1075 <=? 10 ^ (- exp))).

(** ToBoolean: [undefined], [null], [false], [0], [NaN] and the empty string are falsy. *)
Definition truthy (v : JSValue) : bool :=
  match v with
  | JUndefined | JNull => false
  | JBool b => b
  | JNum NaN => false
  | JNum (Inf _) => true
  | JNum (Dec m e) => negb (is_zero m e)
  | JStr s => negb (String.eqb s "")
  | JArr _ | JObj _ => true
  end.

(** [a || b] *)
Definition or_else (a b : JSValue) : JSValue := if truthy a then a else b.

(** [a ?? b] *)
Definition nullish (a b : JSValue) : JSValue :=
  match a with JUndefined | JNull => b | _ => a end.

(** *** Objects *)

Fixpoint get (k : string) (o : Obj) : JSValue :=
  match o with
  | [] => JUndefined
  | (k', v) :: o' => if String.eqb k k' then v else get k o'
  end.

Definition keys (o : Obj) : list string := map fst o.
Definition values (o : Obj) : list JSValue := map snd o.

Definition has (k : string) (o : Obj) : bool :=
  existsb (String.eqb k) (keys o).

(** [o[k] = v] for a name [k] that is not an array index: an existing
    property keeps its place, a new one goes last. *)
Fixpoint set (k : string) (v : JSValue) (o : Obj) : Obj :=
  match o with
  | [] => [(k, v)]
  | (k', v') :: o' =>
      if String.eqb k k' then (k, v) :: o' else (k', v') :: set k v o'
  end.

(** [const { k, ...rest } = o]: the rest object. *)
Definition rest_without (k : string) (o : Obj) : Obj :=
  List.filter (fun p => negb (String.eqb k (fst p))) o.

(** Outcome of an expression that may throw. *)
Inductive Completion (A : Type) : Type :=
  | Normal (a : A)
  | Throw (message : string).
Arguments Normal {A} a.
Arguments Throw {A} message.

(** [v.k] for a property name [k] that is neither an index nor [length]:
    a TypeError on [undefined] and [null], a lookup on an object,
    [undefined] on every other value. *)
Definition member (v : JSValue) (k : string) : Completion JSValue :=
  match v with
  | JUndefined =>
      Throw ("Cannot read properties of undefined (reading '" +:+ k +:+ "')")
  | JNull =>
      Throw ("Cannot read properties of null (reading '" +:+ k +:+ "')")
  | JObj o => Normal (get k o)
  | _ => Normal JUndefined
  end.

(** *** Characters and strings *)

Definition quote : ascii := "034"%char.
Definition quote_s : string := String quote "".
Definition newline : string := String "010"%char "".

(** [\d]: the ASCII digits. *)
Definition is_digit (c : ascii) : bool :=
  let n := N_of_ascii c in ((48 <=? n) && (n <=? 57))%N.

Definition is_plus (c : ascii) : bool := Ascii.eqb c "+"%char.

(** [s.replace(/[cls]/g, by)] for a class of single characters: every
    character in the class is replaced, scanning left to right. *)
Fixpoint replace_class (cls : ascii -> bool) (by_ : string) (s : string) : string :=
  match s with
  | EmptyString => EmptyString
  | String c s' =>
      if cls c then by_ +:+ replace_class cls by_ s'
      else String c (replace_class cls by_ s')
  end.

Definition string_forall (P : ascii -> bool) (s : string) : bool :=
  forallb P (list_ascii_of_string s).

(** A property name that is an array index: the canonical decimal text
    of an integer below [2 ^ 32 - 1]. *)
Fixpoint decimal_value (acc : Z) (s : string) : option Z :=
  match s with
  | EmptyString => Some acc
  | String c s' =>
      if is_digit c then decimal_value (acc * 10 + (Z.of_N (N_of_ascii c) - 48)) s'
      else None
  end.

Definition array_index (k : string) : option Z :=
  match k with
  | EmptyString => None
  | String c rest =>
      if Ascii.eqb c "0"%char && negb (String.eqb rest "") then None
      else match decimal_value 0 k with
           | Some n => if n <? 4294967295 then Some n else None
           | None => None
           end
  end.

Fixpoint insert_index (n : Z) (k : string) (v : JSValue) (o : Obj) : Obj :=
  match o with
  | [] => [(k, v)]
  | (k', v') :: o' =>
      match array_index k' with
      | Some n' => if n <? n' then (k, v) :: o else (k', v') :: insert_index n k v o'
      | None => (k, v) :: o
      end
  end.

(** [o[k] = v] for any name: an existing property keeps its place; a new
    array index goes among the array indices, which an object lists first
    and in ascending order; any other new property goes last. *)
Definition define (k : string) (v : JSValue) (o : Obj) : Obj :=
  if has k o then set k v o
  else match array_index k with
       | Some n => insert_index n k v o
       | None => o ++ [(k, v)]
       end.

Fixpoint join (sep : string) (l : list string) : string :=
  match l with
  | [] => ""
  | [x] => x
  | x :: l' => x +:+ sep +:+ join sep l'
  end.

(** Decimal rendering of an integer, as [String(n)] and template
    literals give for integer-valued numbers below 1e21. *)
Definition dec (z : Z) : string := pretty z.

(** [String(v)] and template-literal conversion. The rendering of a number
    is the language's own (shortest round-trip decimal) and is taken as an
    argument [nts]. *)
Fixpoint to_string (nts : JSNumber -> string) (v : JSValue) : string :=
  match v with
  | JUndefined => "undefined"
  | JNull => "null"
  | JBool true => "true"
  | JBool false => "false"
  | JNum n => nts n
  | JStr s => s
  | JArr items =>
      join ","
        (map (fun x => match x with
                       | JUndefined | JNull => ""
                       | _ => to_string nts x
                       end) items)
  | JObj _ => "[object Object]"
  end.

(** [Array.prototype.sort(cmp)]: the sort is stable, and an element goes
    before another when the comparator is negative; with a consistent
    comparator this is the stable insertion of each element before the
    first element it does not exceed. *)
Section Sort.
Context {A : Type} (cmp : A -> A -> Z).

Fixpoint sort_insert (x : A) (l : list A) : list A :=
    match l with
    | [] => [x]
    | y :: l' => if cmp x y <=? 0 then x :: l else y :: sort_insert x l'
    end.

Definition sort (l : list A) : list A := foldr sort_insert [] l.
End Sort.

End JS.

Import JS.

(** ** Phone cleaning *)

Module Phone.

(** [/[^\d+]/]: inside a character class [+] is a literal, so the negated
    class matches every character that is neither a digit nor a plus sign. *)
Definition not_digit_or_plus (c : ascii) : bool :=
  negb (is_digit c || is_plus c).

(** [cleanPhoneNumber] *)
Definition cleanPhoneNumber (phone : JSValue) : JSValue :=
  let phone :=
    match phone with
    | JArr (first :: _) => first
    | _ => phone
    end in
  match phone with
  | JStr s => JStr (replace_class not_digit_or_plus "" s)
  | _ => JStr "Error"
  end.

(** The value the type test of [cleanPhoneNumber] looks at. *)
Definition unwrapped (phone : JSValue) : JSValue :=
  match phone with
  | JArr (first :: _) => first
  | _ => phone
  end.

(** The specification's reading: the first element of an array (which is
    [undefined] for the empty array), then [Error] for a non-string, and
    otherwise the digits plus a [+] only where it leads the string. *)
Fixpoint keep_digits (s : string) : string :=
  match s with
  | EmptyString => EmptyString
  | String c s' => if is_digit c then String c (keep_digits s') else keep_digits s'
  end.

Definition strip_leading_plus_spec (s : string) : string :=
  match s with
  | EmptyString => EmptyString
  | String c s' =>
      if is_digit c || is_plus c then String c (keep_digits s') else keep_digits s'
  end.

Definition first_element_spec (raw : JSValue) : JSValue :=
  match raw with
  | JArr [] => JUndefined
  | JArr (x :: _) => x
  | _ => raw
  end.

Definition clean_reference_spec (raw : JSValue) : JSValue :=
  match first_element_spec raw with
  | JStr s => JStr (strip_leading_plus_spec s)
  | _ => JStr "Error"
  end.

(** The same reference with the [+] kept wherever it stands. *)
Fixpoint keep_digits_and_plus (s : string) : string :=
  match s with
  | EmptyString => EmptyString
  | String c s' =>
      if is_digit c || is_plus c then String c (keep_digits_and_plus s')
      else keep_digits_and_plus s'
  end.

Definition clean_reference_any_plus (raw : JSValue) : JSValue :=
  match first_element_spec raw with
  | JStr s => JStr (keep_digits_and_plus s)
  | _ => JStr "Error"
  end.

End Phone.

(** ** The windowed limit query

    [SELECT * FROM (SELECT *, ROW_NUMBER() OVER (PARTITION BY company
    ORDER BY linkedin) as rn FROM uploaded) WHERE rn <= limit] *)

Module Limiter.

Inductive SqlVal : Type :=
  | SqlNull
  | SqlInt (z : Z)
  | SqlStr (s : string).

#[global] Instance SqlVal_eq_dec : EqDecision SqlVal.
Proof. solve_decision. Defined.

(** The table the engine makes of the file: the names of the columns and,
    for each line, the values of the columns. Columns of integers and of
    text are modelled. *)
Record Table : Type := {
  columns : list string;
  rows : list (list SqlVal)
}.

(** A row with its column names. *)
Definition SqlRow : Type := list (string * SqlVal).

Definition named (t : Table) : list SqlRow := map (combine (columns t)) (rows t).

(** The engine matches identifiers without regard to (ASCII) case. *)
Definition lower (c : ascii) : ascii :=
  let n := N_of_ascii c in
  if ((65 <=? n) && (n <=? 90))%N then ascii_of_N (n + 32) else c.

Fixpoint same_identifier (a b : string) : bool :=
  match a, b with
  | EmptyString, EmptyString => true
  | String x a', String y b' => Ascii.eqb (lower x) (lower y) && same_identifier a' b'
  | _, _ => false
  end.

Definition has_column (c : string) (cols : list string) : bool :=
  existsb (same_identifier c) cols.

(** The value a name denotes in a row: that of the first column of that
    name (NULL stands for a name the row does not have, which a query that
    was accepted never reads). *)
Fixpoint column (c : string) (r : SqlRow) : SqlVal :=
  match r with
  | [] => SqlNull
  | (c', v) :: r' => if same_identifier c c' then v else column c r'
  end.

(** Ascending order of [ORDER BY]: NULLs last (the engine's default),
    integers by value, text by bytes. A column has one type, so the
    integer/text case does not arise; it is ordered to keep the relation
    total. *)
Definition sql_leb (a b : SqlVal) : bool :=
  match a, b with
  | _, SqlNull => true
  | SqlNull, _ => false
  | SqlInt x, SqlInt y => x <=? y
  | SqlInt _, SqlStr _ => true
  | SqlStr _, SqlInt _ => false
  | SqlStr x, SqlStr y => String.leb x y
  end.

(** The comparator of [ORDER BY col]. *)
Definition order_by (col : string) (a b : SqlRow) : Z :=
  if sql_leb (column col a) (column col b) then
    if sql_leb (column col b) (column col a) then 0 else -1
  else 1.

Definition in_partition (col : string) (g : SqlVal) (r : SqlRow) : bool :=
  bool_decide (column col r = g).

Definition partitions (col : string) (t : list SqlRow) : list SqlVal :=
  remove_dups (map (column col) t).

Fixpoint number_from (n : Z) (l : list SqlRow) : list (SqlRow * Z) :=
  match l with
  | [] => []
  | r :: l' => (r, n) :: number_from (n + 1) l'
  end.

(** What the query leaves to the engine, which may differ from one run
    to the next: the order in which the rows of a partition reach the sort
    (so, how rows with equal keys are numbered) and the order in which the
    rows of the result are returned. Both only reorder. *)
Record Engine : Type := {
  arrange : list SqlRow -> list SqlRow;
  emit : list SqlRow -> list SqlRow;
  arrange_perm : forall l, Permutation (arrange l) l;
  emit_perm : forall l, Permutation (emit l) l
}.

(** [ROW_NUMBER() OVER (PARTITION BY pcol ORDER BY ocol)] *)
Definition row_number_over (engine : Engine) (pcol ocol : string) (t : list SqlRow)
    : list (SqlRow * Z) :=
  flat_map
    (fun g =>
       number_from 1
         (sort (order_by ocol) (arrange engine (List.filter (in_partition pcol g) t))))
    (partitions pcol t).

(** A row of the inner [SELECT *, ... as rn]: the table's columns followed by [rn]. *)
Definition with_rn (p : SqlRow * Z) : SqlRow := fst p ++ [("rn", SqlInt (snd p))].

(** [WHERE rn <= limit]: the name [rn] denotes the first column of that
    name, so a column [rn] of the file hides the row number; a comparison
    with NULL keeps nothing. *)
Definition rn_within (limit : Z) (row : SqlRow) : bool :=
  match column "rn" row with
  | SqlInt x => x <=? limit
  | _ => false
  end.

(** A column [rn] of the file that holds text: the engine does not compare
    text with a number without a cast. *)
Definition rn_is_text (t : list SqlRow) : bool :=
  existsb (fun r => match column "rn" r with SqlStr _ => true | _ => false end) t.

(** The query; [None] when the engine rejects it: a table without a column
    [company] or [linkedin], or a text column [rn]. *)
Definition limited_query (engine : Engine) (limit : Z) (uploaded : Table)
    : option (list SqlRow) :=
  if has_column "company" (columns uploaded)
     && has_column "linkedin" (columns uploaded)
     && negb (rn_is_text (named uploaded))
  then Some
         (emit engine
            (List.filter (rn_within limit)
               (map with_rn (row_number_over engine "company" "linkedin" (named uploaded)))))
  else None.

(** Rows as the driver hands them to JavaScript: an object on which the
    columns are set one after the other. *)
Definition sql_to_js (v : SqlVal) : JSValue :=
  match v with
  | SqlNull => JNull
  | SqlInt z => int z
  | SqlStr s => JStr s
  end.

Definition row_to_js (r : SqlRow) : Obj :=
  fold_left (fun o p => define (fst p) (sql_to_js (snd p)) o) r [].

End Limiter.

(** ** The enrichment loop of the upload route *)

Module Enrich.

(** What [await axios.post(...)] does: it rejects (transport error,
    timeout, status outside 2xx) with an error carrying a message, or it
    resolves with a response. *)
Inductive Outcome : Type :=
  | Rejected (message : string)
  | Resolved (response : JSValue).

(** One [console.error("Error for <linkedin>:", err.message)] line. *)
Record ErrorLine : Type := { line_id : JSValue; line_message : string }.

Record LoopState : Type := {
  calls : nat;
  console_error : list ErrorLine;
  results : list Obj
}.

Section Loop.
  (** The lookup service: what the [n]-th request, for this [linkedinUrl], does. *)
Variable axios_post : nat -> JSValue -> Outcome.

  (** The body of the [try] block: the value assigned to [phone]. *)
Definition try_lookup (n : nat) (row : Obj) : Completion JSValue :=
    match axios_post n (get "linkedin" row) with
    | Rejected message => Throw message
    | Resolved response =>
        match member response "data" with
        | Throw message => Throw message
        | Normal data =>
            match member data "phone" with
            | Throw message => Throw message
            | Normal rawPhone =>
                Normal (Phone.cleanPhoneNumber (or_else rawPhone (JStr "Not Found")))
            end
        end
    end.

Definition enrich_row (row : Obj) (st : LoopState) : LoopState :=
    let phone0 := JStr "Not Found" in
    match try_lookup (calls st) row with
    | Normal phone =>
        {| calls := S (calls st);
           console_error := console_error st;
           results := results st ++ [set "phonenumber" phone row] |}
    | Throw message =>
        {| calls := S (calls st);
           console_error :=
             console_error st ++ [{| line_id := get "linkedin" row; line_message := message |}];
           results := results st ++ [set "phonenumber" phone0 row] |}
    end.

Fixpoint enrich_loop (limited : list Obj) (st : LoopState) : LoopState :=
    match limited with
    | [] => st
    | row :: rest => enrich_loop rest (enrich_row row st)
    end.

Definition enrich (limited : list Obj) : LoopState :=
    enrich_loop limited {| calls := 0; console_error := []; results := [] |}.
End Loop.

End Enrich.

(** ** CSV serialisation of the enriched rows *)

Module Csv.

Definition is_quote (c : ascii) : bool := Ascii.eqb c quote.
Definition is_nul (c : ascii) : bool := Ascii.eqb c "000"%char.
Definition is_escape (c : ascii) : bool :=
  Ascii.eqb c ","%char || Ascii.eqb c "013"%char || Ascii.eqb c "010"%char.

Definition contains (P : ascii -> bool) (s : string) : bool :=
  existsb P (list_ascii_of_string s).

Definition is_nil (v : JSValue) : bool :=
  match v with JUndefined | JNull => true | _ => false end.

(** A field between two quote characters. *)
Definition quoted (body : string) : string := quote_s +:+ body +:+ quote_s.

Section Format.
Variable nts : JSNumber -> string.

  (** The [safeResults] mapping of [exportCSVAndUpload]. *)
Definition safe_row (row : Obj) : Obj :=
    let rest := rest_without "rn" row in
    let phonenumber := get "phonenumber" row in
    set "phonenumber"
      (if truthy phonenumber
       then JStr ("=" +:+ quoted (to_string nts phonenumber))
       else JStr "")
      rest.

Definition safeResults (results : list Obj) : list Obj := map safe_row results.

  (** The formatter of the CSV library for one field: NUL characters are
      dropped; a field holding the quote character has it doubled and is
      quoted; otherwise a field is quoted when it holds a delimiter or a
      line break, or when the [quoteColumns] option (which headers follow)
      asks for it. *)
Definition format_field (quoteColumns : bool) (field : JSValue) : string :=
    let prepared :=
      replace_class is_nul "" (if is_nil field then "" else to_string nts field) in
    if contains is_quote prepared
    then quoted (replace_class is_quote (quote_s +:+ quote_s) prepared)
    else if contains is_escape prepared || quoteColumns
         then quoted prepared
         else prepared.

  (** [headers: true] with object rows: the header line is the keys of the
      first row, and every row is read through those keys. *)
Definition format_rows (quoteColumns : bool) (rows : list Obj) : list (list string) :=
    match rows with
    | [] => []
    | first :: _ =>
        map (fun h => format_field quoteColumns (JStr h)) (keys first)
        :: map (fun row => map (fun h => format_field quoteColumns (get h row)) (keys first)) rows
    end.

Definition csv_text (quoteColumns : bool) (rows : list Obj) : string :=
    join newline (map (join ",") (format_rows quoteColumns rows)).

  (** [writeToStream(writeStream, safeResults, { headers: true, quoteColumns: true })] *)
Definition written_fields (results : list Obj) : list (list string) :=
    format_rows true (safeResults results).

Definition written_file (results : list Obj) : string :=
    csv_text true (safeResults results).
End Format.

End Csv.

(** ** Responses, timers, console and the object storage *)

Module Sys.

Inductive Response : Type :=
  | Send (status : Z) (body : string)
  | SendJson (status : Z) (error : string)
  | Redirect (url : string).

Inductive Timer : Type :=
  | RemoveObject (delay : Z) (bucket : string) (name : string)
  | UnlinkFiles (delay : Z) (paths : list string).

(** A console line: a text, or for [console.error(label, err)] the label
    and the error object, which is printed with its name and message (and
    its stack, which is left out). *)
Inductive ConsoleLine : Type :=
  | Log (text : string)
  | Warn (text : string)
  | Error (text : string)
  | ErrorObject (label : string) (name message : string).

Record FileObject : Type := {
  name : string;
  created_at : Z;
  content : string
}.

Definition Bucket : Type := list FileObject.

(** How the storage service answers: the error an upload or a removal of a
    given name returns (if any), whether a listing returns no data, the
    creation time it stamps on a new object, and the public URL of a name. *)
Record Storage : Type := {
  upload_error : string -> option string;
  remove_error : string -> option string;
  list_fails : bool;
  created_now : Z;
  public_url : string -> string
}.

Record World : Type := {
  buckets : string -> Bucket;
  console : list ConsoleLine;
  timers : list Timer;
  response : option Response
}.

Definition set_bucket (b : string) (objs : Bucket) (w : World) : World :=
  {| buckets := fun b' => if String.eqb b' b then objs else buckets w b';
     console := console w; timers := timers w; response := response w |}.

Definition print (l : ConsoleLine) (w : World) : World :=
  {| buckets := buckets w; console := console w ++ [l];
     timers := timers w; response := response w |}.

Definition set_timeout (t : Timer) (w : World) : World :=
  {| buckets := buckets w; console := console w;
     timers := timers w ++ [t]; response := response w |}.

Definition respond (r : Response) (w : World) : World :=
  {| buckets := buckets w; console := console w;
     timers := timers w; response := Some r |}.

(** A handler whose promise rejects without a [catch]: the request gets
    no answer. *)
Definition unanswered (w : World) : World :=
  {| buckets := buckets w; console := console w;
     timers := timers w; response := None |}.

Definition has_name (n : string) (b : Bucket) : bool :=
  existsb (fun o => String.eqb (name o) n) b.

Definition without_name (n : string) (b : Bucket) : Bucket :=
  List.filter (fun o => negb (String.eqb (name o) n)) b.

(** [upload(name, bytes, { upsert: true })]: replaces an object of that name. *)
Definition put (o : FileObject) (b : Bucket) : Bucket := without_name (name o) b ++ [o].

Definition by_name (a b : FileObject) : Z :=
  match String.compare (name a) (name b) with
  | Lt => -1
  | Eq => 0
  | Gt => 1
  end.

(** [list("", { limit })]: the first [limit] objects in name order, or no
    data when the call fails. *)
Definition storage_list (svc : Storage) (limit : nat) (b : Bucket) : option (list FileObject) :=
  if list_fails svc then None else Some (take limit (sort by_name b)).

(** [remove([name])]: the call returns its error instead of throwing. *)
Definition storage_remove (svc : Storage) (n : string) (b : Bucket) : option string * Bucket :=
  match remove_error svc n with
  | Some e => (Some e, b)
  | None => (None, without_name n b)
  end.

End Sys.

Import Sys.

(** ** Publishing the enriched file: [exportCSVAndUpload] *)

Module Publish.

(** [(a, b) => new Date(b.created_at) - new Date(a.created_at)] *)
Definition newest_first (a b : FileObject) : Z := created_at b - created_at a.

(** [listData.sort(...).slice(3)] *)
Definition beyond_three (listData : list FileObject) : list FileObject :=
  drop 3 (sort newest_first listData).

(** [for (const f of sorted) await remove([f.name])]: the result of each
    call is dropped. *)
Fixpoint remove_each (svc : Storage) (sorted : list FileObject) (b : Bucket) : Bucket :=
  match sorted with
  | [] => b
  | f :: rest => remove_each svc rest (snd (storage_remove svc (name f) b))
  end.

Definition hatch_bucket : string := "hatch-exports".

(** The [finish] handler of the write stream. [now] is [Date.now()] at the
    handler, [fileBuffer] the bytes of the written file. *)
Definition on_finish (svc : Storage) (shouldCleanup : bool) (filePath outPath : string)
    (now : Z) (fileBuffer : string) (w : World) : World :=
  let fileName := "hatch_result_" +:+ dec now +:+ ".csv" in
  match upload_error svc fileName with
  | Some message =>
      respond (Send 500 "Failed to upload result.")
        (print (Error ("Upload failed: " +:+ message)) w)
  | None =>
      let stored :=
        put {| name := fileName; created_at := created_now svc; content := fileBuffer |}
            (buckets w hatch_bucket) in
      let w1 := set_bucket hatch_bucket stored w in
      let publicUrl := public_url svc fileName in
      match storage_list svc 100 stored with
      | None =>
          respond (Send 500 "Something went wrong.")
            (print (ErrorObject "Error in upload process:" "TypeError"
                      "Cannot read properties of null (reading 'sort')") w1)
      | Some listData =>
          let sorted := beyond_three listData in
          let w2 := set_bucket hatch_bucket (remove_each svc sorted stored) w1 in
          let w3 := if shouldCleanup
                    then set_timeout (UnlinkFiles 1000 [filePath; outPath]) w2
                    else w2 in
          set_timeout (RemoveObject 60000 hatch_bucket fileName)
            (respond (Redirect publicUrl) w3)
      end
  end.

End Publish.

(** ** The upload route *)

Module Upload.

(** White space that [parseInt] skips, in the UTF-8 encoding: the ASCII
    controls and the space, U+00A0, and the three-byte U+1680,
    U+2000..U+200A, U+2028, U+2029, U+202F, U+205F, U+3000 and U+FEFF. *)
Definition ws1 (c : ascii) : bool :=
  let n := N_of_ascii c in (((9 <=? n) && (n <=? 13)) || (n =? 32))%N.

Definition ws2 (c1 c2 : ascii) : bool :=
  ((N_of_ascii c1 =? 194) && (N_of_ascii c2 =? 160))%N.

Definition ws3 (c1 c2 c3 : ascii) : bool :=
  let a := N_of_ascii c1 in
  let b := N_of_ascii c2 in
  let c := N_of_ascii c3 in
  (((a =? 225) && (b =? 154) && (c =? 128))
   || ((a =? 226) && (b =? 128)
       && (((128 <=? c) && (c <=? 138)) || (c =? 168) || (c =? 169) || (c =? 175)))
   || ((a =? 226) && (b =? 129) && (c =? 159))
   || ((a =? 227) && (b =? 128) && (c =? 128))
   || ((a =? 239) && (b =? 187) && (c =? 191)))%N.

Fixpoint trim_start (s : string) : string :=
  match s with
  | String c1 s1 =>
      if ws1 c1 then trim_start s1
      else match s1 with
           | String c2 s2 =>
               if ws2 c1 c2 then trim_start s2
               else match s2 with
                    | String c3 s3 => if ws3 c1 c2 c3 then trim_start s3 else s
                    | EmptyString => s
                    end
           | EmptyString => s
           end
  | EmptyString => s
  end.

Definition digit_value (radix : Z) (c : ascii) : option Z :=
  let n := Z.of_N (N_of_ascii c) in
  let v := if (48 <=? n) && (n <=? 57) then Some (n - 48)
           else if (97 <=? n) && (n <=? 122) then Some (n - 87)
           else if (65 <=? n) && (n <=? 90) then Some (n - 55)
           else None in
  match v with
  | Some d => if d <? radix then Some d else None
  | None => None
  end.

(** The longest prefix of radix digits, as an integer; [None] when it is empty. *)
Fixpoint parse_digits (radix : Z) (acc : option Z) (s : string) : option Z :=
  match s with
  | EmptyString => acc
  | String c s' =>
      match digit_value radix c with
      | Some d => parse_digits radix (Some (default 0 acc * radix + d)) s'
      | None => acc
      end
  end.

Definition strip_sign (s : string) : bool * string :=
  match s with
  | String c r =>
      if Ascii.eqb c "-"%char then (true, r)
      else if Ascii.eqb c "+"%char then (false, r)
      else (false, s)
  | EmptyString => (false, s)
  end.

Definition strip_hex_prefix (s : string) : Z * string :=
  match s with
  | String c1 (String c2 r) =>
      if Ascii.eqb c1 "0"%char && (Ascii.eqb c2 "x"%char || Ascii.eqb c2 "X"%char)
      then (16, r) else (10, s)
  | _ => (10, s)
  end.

(** The Number of an integer: the nearest double, ties going to the even
    mantissa of 53 bits, which is an infinity from [2 ^ 1024 - 2 ^ 970] on. *)
Definition to_number (z : Z) : JSNumber :=
  let a := Z.abs z in
  let bits := Z.log2 a + 1 in
  if bits <=? 53 then Dec z 0
  else
    let shift := bits - 53 in
    let q := a / 2 ^ shift in
    let r := a mod 2 ^ shift in
    let half := 2 ^ (shift - 1) in
    let q' := if (half <? r) || ((r =? half) && Z.odd q) then q + 1 else q in
    let v := q' * 2 ^ shift in
    if 2 ^ 1024 <=? v then Inf (z <? 0) else Dec (Z.sgn z * v) 0.

(** [parseInt(string)] without a radix: the Number of the integer the
    longest prefix of digits denotes ([-0] is falsy as [0] is). *)
Definition parseInt (input : string) : JSNumber :=
  let '(negative, s1) := strip_sign (trim_start input) in
  let '(radix, s2) := strip_hex_prefix s1 in
  match parse_digits radix None s2 with
  | None => NaN
  | Some m => to_number (if negative then - m else m)
  end.

(** The number the text [${limit}] is in the query: the value of a
    finite limit ([parseInt] gives no fraction); [Infinity], [-Infinity]
    and [NaN] are no numbers of the query language and the engine rejects
    the query. *)
Definition limit_literal (limit : JSNumber) : option Z :=
  match limit with
  | Dec m e => if 0 <=? e then Some (m * 10 ^ e) else None
  | _ => None
  end.

(** The multipart file as stored by the upload middleware, with the table
    the query engine reads from it; [None] when the stream parser stops on
    an error before the end of the file or the engine cannot read it: the
    [end] callback then does not run, or its query is rejected. *)
Record UploadedFile : Type := {
  path : string;
  uploaded : option Limiter.Table
}.

(** A multipart request: [req.body.limit] (a text field, or [undefined])
    and [req.file]. *)
Record Request : Type := {
  body_limit : option string;
  file : option UploadedFile
}.


Section Route.
Variable nts : JSNumber -> string.
Variable axios_post : nat -> JSValue -> Enrich.Outcome.
Variable engine : Limiter.Engine.
Variable svc : Storage.
  (** [process.env.CLEANUP_FILES === "true"], [os.tmpdir()], and the two
      readings of [Date.now()]. *)
Variable shouldCleanup : bool.
Variable tmpdir : string.
Variables now_out now_finish : Z.

Definition error_line (l : Enrich.ErrorLine) : ConsoleLine :=
    Error ("Error for " +:+ to_string nts (Enrich.line_id l) +:+ ": " +:+ Enrich.line_message l).

Definition exportCSVAndUpload (results : list Obj) (filePath : string) (w : World) : World :=
    let outPath := tmpdir +:+ "/hatch_output_" +:+ dec now_out +:+ ".csv" in
    Publish.on_finish svc shouldCleanup filePath outPath now_finish
      (Csv.written_file nts results) w.

(** The [end] callback of the read stream. The rejection of the query
    promise is not handled there, and the request then gets no answer. *)
Definition process (limit : JSNumber) (f : UploadedFile) (w : World) : World :=
    match uploaded f, limit_literal limit with
    | Some table, Some z =>
        match Limiter.limited_query engine z table with
        | Some rows =>
            let limited := map Limiter.row_to_js rows in
            let st := Enrich.enrich axios_post limited in
            let w1 :=
              fold_left (fun w l => print (error_line l) w) (Enrich.console_error st) w in
            exportCSVAndUpload (Enrich.results st) (path f) w1
        | None => unanswered w
        end
    | _, _ => unanswered w
    end.

(** The handler on a multipart request. *)
Definition upload_route (req : Request) (w : World) : World :=
    let limit := parseInt (default "undefined" (body_limit req)) in
    match file req with
    | None => respond (Send 400 "Invalid input.") w
    | Some f =>
        if negb (truthy (JNum limit)) then respond (Send 400 "Invalid input.") w
        else process limit f w
    end.

End Route.

End Upload.

(** ** The paginated bulk exports *)

Module BulkExport.

(** What one [select("*").eq("client_id", id).range(from, to)] returns. *)
Inductive FetchResult : Type :=
  | FetchError (message : string)
  | FetchData (data : option (list Obj)).

Definition pageSize : nat := 1000.

Record LoopState : Type := {
  page : nat;
  csvParts : list string;
  headersWritten : bool
}.

Inductive Step : Type :=
  | Continue (st : LoopState)
  | Break (st : LoopState)
  | Raise (message : string).

(** A table of the datastore holding finitely many rows for the tenant:
    a range read returns the rows at positions [from..to]. *)
Definition range_of (rows : list Obj) (from to : nat) : FetchResult :=
  FetchData (Some (take (S to - from) (drop from rows))).

Section Bulk.
Variable nts : JSNumber -> string.

Definition header_row (first : Obj) : string := join "," (keys first) +:+ newline.

Definition cell (val : JSValue) : string :=
    Csv.quoted
      (replace_class Csv.is_quote (quote_s +:+ quote_s) (to_string nts (nullish val (JStr "")))).

Definition row_str (row : Obj) : string := join "," (map cell (values row)) +:+ newline.

Section Loop.
Variable select_range : nat -> nat -> FetchResult.
Variable fetch_error_prefix : string.

    (** One turn of the [while (true)] loop. *)
Definition loop_body (st : LoopState) : Step :=
      let from := (page st * pageSize)%nat in
      let to := (from + pageSize - 1)%nat in
      match select_range from to with
      | FetchError message => Raise (fetch_error_prefix +:+ message)
      | FetchData None => Break st
      | FetchData (Some []) => Break st
      | FetchData (Some ((first :: _) as data)) =>
          let parts :=
            (if headersWritten st then csvParts st else csvParts st ++ [header_row first])
            ++ map row_str data in
          if (length data <? pageSize)%nat
          then Break {| page := page st; csvParts := parts; headersWritten := true |}
          else Continue {| page := S (page st); csvParts := parts; headersWritten := true |}
      end.

Fixpoint loop (fuel : nat) (st : LoopState) : option (Completion LoopState) :=
      match fuel with
      | O => None
      | S fuel' =>
          match loop_body st with
          | Continue st' => loop fuel' st'
          | Break st' => Some (Normal st')
          | Raise message => Some (Throw message)
          end
      end.

Definition initial : LoopState := {| page := 0; csvParts := []; headersWritten := false |}.
End Loop.

  (** The number of [loop_body] turns is bounded by [fuel]; [None] is a
      run that needs more. *)
Section Functions.
Variable svc : Storage.
Variable fuel : nat.

    (** [upload(fileName, buffer, { contentType })], without upsert: an
        existing name is an error the call returns. *)
Definition upload_new (bucket fileName buffer : string) (w : World)
        : option string * World :=
      match upload_error svc fileName with
      | Some e => (Some e, w)
      | None =>
          if has_name fileName (buckets w bucket)
          then (Some "The resource already exists", w)
          else (None,
                set_bucket bucket
                  (buckets w bucket
                   ++ [{| name := fileName; created_at := created_now svc; content := buffer |}])
                  w)
      end.

    (** The part of both export functions after the empty-result test. *)
Definition upload_and_link (bucket fileName ready uploadFailed uploaded urlFailed urlLine : string)
        (parts : list string) (w : World)
        : Completion (option (string * string)) * World :=
      let buffer := String.concat "" parts in
      let w1 := print (Log (ready +:+ fileName +:+ " (" +:+ dec (Z.of_nat (String.length buffer)) +:+ " bytes)")) w in
      match upload_new bucket fileName buffer w1 with
      | (Some e, w2) => (Throw (uploadFailed +:+ e), w2)
      | (None, w2) =>
          let w3 := print (Log (uploaded +:+ fileName)) w2 in
          let publicUrl := public_url svc fileName in
          if String.eqb publicUrl ""
          then (Throw urlFailed, w3)
          else (Normal (Some (fileName, publicUrl)),
                print (Log (urlLine +:+ publicUrl)) w3)
      end.

    (** [exportLeads]: [Normal None] is the bare [return]. *)
Definition exportLeads (select_range : nat -> nat -> FetchResult) (clientId : string)
        (timestamp : Z) (w : World)
        : option (Completion (option (string * string)) * World) :=
      let bucket := "leadexports" in
      let fileName := "Leads_" +:+ clientId +:+ "_" +:+ dec timestamp +:+ ".csv" in
      match loop select_range "Error fetching leads: " fuel initial with
      | None => None
      | Some (Throw message) => Some (Throw message, w)
      | Some (Normal st) =>
          match csvParts st with
          | [] => Some (Normal None, print (Warn ("No data found for client_id: " +:+ clientId)) w)
          | parts =>
              Some (upload_and_link bucket fileName "CSV ready: " "Upload failed: "
                      "File uploaded: " "Could not get public URL" "Download URL: " parts w)
          end
      end.

    (** [exportPocLevels] *)
Definition exportPocLevels (select_range : nat -> nat -> FetchResult) (clientId : string)
        (timestamp : Z) (w : World)
        : option (Completion (option (string * string)) * World) :=
      let bucket := "poclevelexports" in
      let fileName := "POC_Levels_" +:+ clientId +:+ "_" +:+ dec timestamp +:+ ".csv" in
      match loop select_range "Error fetching POC levels: " fuel initial with
      | None => None
      | Some (Throw message) => Some (Throw message, w)
      | Some (Normal st) =>
          match csvParts st with
          | [] => Some (Throw ("No data found for client_id: " +:+ clientId), w)
          | parts =>
              Some (upload_and_link bucket fileName "POC CSV ready: " "POC Upload failed: "
                      "POC File uploaded: " "Could not get POC public URL" "POC Download URL: "
                      parts w)
          end
      end.

    (** The body shared by the two [GET] handlers: [client_id] is the query
        parameter; destructuring the result of the export function throws
        when it is [undefined]. *)
Definition export_route
        (export : string -> Z -> World -> option (Completion (option (string * string)) * World))
        (bucket failed : string) (client_id : option string) (timestamp : Z) (w : World)
        : option World :=
      match client_id with
      | None => Some (respond (SendJson 400 "Missing client_id") w)
      | Some clientId =>
          if String.eqb clientId ""
          then Some (respond (SendJson 400 "Missing client_id") w)
          else
            match export clientId timestamp w with
            | None => None
            | Some (Throw message, w') =>
                Some (respond (SendJson 500 failed)
                        (print (ErrorObject (failed +:+ ":") "Error" message) w'))
            | Some (Normal None, w') =>
                Some (respond (SendJson 500 failed)
                        (print (ErrorObject (failed +:+ ":") "TypeError"
                                  "Cannot destructure property 'fileName' of '(intermediate value)' as it is undefined.")
                           w'))
            | Some (Normal (Some (fileName, downloadUrl)), w') =>
                Some (set_timeout (RemoveObject 60000 bucket fileName)
                        (respond (Redirect downloadUrl) w'))
            end
      end.

(** [app.get("/export-leads", ...)] and [app.get("/poc-level-exports", ...)] *)
Definition get_export_leads (select_range : nat -> nat -> FetchResult) :=
  export_route (exportLeads select_range) "leadexports" "Export failed".

End Functions.
End Bulk.

End BulkExport.

(** * Definitions used by the statements *)

Definition digit_or_plus (c : ascii) : bool := is_digit c || is_plus c.

(** The value the loop leaves in [phone] for the [n]-th request. *)
Definition phone_for (axios_post : nat -> JSValue -> Enrich.Outcome) (n : nat) (row : Obj)
    : JSValue :=
  match Enrich.try_lookup axios_post n row with
  | Normal phone => phone
  | Throw _ => JStr "Not Found"
  end.

Definition enriched (axios_post : nat -> JSValue -> Enrich.Outcome) (n : nat) (row : Obj) : Obj :=
  set "phonenumber" (phone_for axios_post n row) row.

(** A lookup service that times out on the second request and answers the
    others with a number where the phone should be. *)
Definition flaky_service (n : nat) (url : JSValue) : Enrich.Outcome :=
  match n with
  | 1%nat => Enrich.Rejected "timeout of 0ms exceeded"
  | _ => Enrich.Resolved (JObj [("data", JObj [("phone", JArr [int 42])])])
  end.

Definition three_rows : list Obj :=
  [ [("company", JStr "A"); ("linkedin", JStr "in/a"); ("rn", int 1)];
    [("company", JStr "A"); ("linkedin", JStr "in/b"); ("rn", int 2)];
    [("company", JStr "B"); ("linkedin", JStr "in/c"); ("rn", int 1)] ].

(** A lookup service that answers every request with the given body. *)
Definition answering (data : JSValue) (n : nat) (url : JSValue) : Enrich.Outcome :=
  Enrich.Resolved (JObj [("status", int 200); ("data", data)]).

(** Numbers rendered as their integer part, for the closed examples. *)
Definition integer_text (n : JSNumber) : string :=
  match n with
  | NaN => "NaN"
  | Inf negative => if negative then "-Infinity" else "Infinity"
  | Dec m _ => dec m
  end.

Definition plain_storage : Storage :=
  {| upload_error := fun _ => None;
     remove_error := fun _ => None;
     list_fails := false;
     created_now := 1700000000500;
     public_url := fun n => "https://storage.example/hatch-exports/" +:+ n |}.

Definition empty_world : World :=
  {| buckets := fun _ => []; console := []; timers := []; response := None |}.

Definition five_rows : Limiter.Table :=
  {| Limiter.columns := ["company"; "linkedin"];
     Limiter.rows :=
       [ [Limiter.SqlStr "A"; Limiter.SqlStr "in/c"];
         [Limiter.SqlStr "B"; Limiter.SqlStr "in/z"];
         [Limiter.SqlStr "A"; Limiter.SqlStr "in/a"];
         [Limiter.SqlStr "A"; Limiter.SqlStr "in/b"];
         [Limiter.SqlStr "B"; Limiter.SqlStr "in/y"] ] |}.

Definition five_leads : Upload.UploadedFile :=
  {| Upload.path := "uploads/3f2a"; Upload.uploaded := Some five_rows |}.

(** An engine that reverses the rows of a partition before the sort and
    the rows of the result. *)
Definition reversing : Limiter.Engine :=
  {| Limiter.arrange := fun l => rev l;
     Limiter.emit := fun l => rev l;
     Limiter.arrange_perm := fun l => Permutation_sym (Permutation_rev l);
     Limiter.emit_perm := fun l => Permutation_sym (Permutation_rev l) |}.

(** [a] may stand before [b] under the comparator. *)
Definition before {A : Type} (cmp : A -> A -> Z) (a b : A) : Prop := cmp a b <= 0.

Definition hatch_result (now : Z) : string := "hatch_result_" +:+ dec now +:+ ".csv".

(** An object survives the removal loop unless a listed object of its name
    was removed without error. *)
Definition survives (svc : Storage) (doomed : list FileObject) (o : FileObject) : bool :=
  negb (existsb (fun f => String.eqb (name f) (name o)
                          && bool_decide (remove_error svc (name f) = None)) doomed).

(** The bucket once the new file is uploaded, what the listing returns, and
    the listing in the order of the comparator. *)
Definition stored_after_upload (svc : Storage) (now : Z) (fileBuffer : string) (w : World)
    : Bucket :=
  put {| name := hatch_result now; created_at := created_now svc; content := fileBuffer |}
    (buckets w Publish.hatch_bucket).

Definition listed_by_date (svc : Storage) (now : Z) (fileBuffer : string) (w : World)
    : list FileObject :=
  sort Publish.newest_first (take 100 (sort by_name (stored_after_upload svc now fileBuffer w))).

Definition three_files : World :=
  {| buckets := fun b =>
       if String.eqb b "hatch-exports"
       then [ {| name := "hatch_result_1700000000100.csv"; created_at := 1700000000150;
                 content := "a" |};
              {| name := "hatch_result_1600000000000.csv"; created_at := 1600000000050;
                 content := "b" |};
              {| name := "hatch_result_1700000000200.csv"; created_at := 1700000000250;
                 content := "c" |} ]
       else [];
     console := []; timers := []; response := None |}.

(** The rows a finite table returns for page [p]. *)
Definition page_rows (rows : list Obj) (p : nat) : list Obj :=
  take BulkExport.pageSize (drop (p * BulkExport.pageSize) rows).

(** The header part the loop still has to write. *)
Definition pending_header (hw : bool) (remaining : list Obj) : list string :=
  if hw then []
  else match remaining with
       | [] => []
       | first :: _ => [BulkExport.header_row first]
       end.

(** The line the loop logs for the [i]-th row: none when the lookup went
    through, the row's [linkedin] and the error's message when it threw. *)
Definition logged (axios_post : nat -> JSValue -> Enrich.Outcome) (i : nat) (row : Obj)
    : list Enrich.ErrorLine :=
  match Enrich.try_lookup axios_post i row with
  | Normal _ => []
  | Throw message =>
      [{| Enrich.line_id := get "linkedin" row; Enrich.line_message := message |}]
  end.

(** The keys of a row once [phonenumber] is set on it. *)
Definition with_phonenumber_key (row : Obj) : list string :=
  if has "phonenumber" row then keys row else keys row ++ ["phonenumber"].

Definition not_rn (k : string) : bool := negb (String.eqb "rn" k).

(** The timers a successful run of the [finish] handler adds. *)
Definition publish_timers (shouldCleanup : bool) (filePath outPath : string) (now : Z)
    : list Timer :=
  (if shouldCleanup then [UnlinkFiles 1000 [filePath; outPath]] else [])
  ++ [RemoveObject 60000 Publish.hatch_bucket (hatch_result now)].

(** The inverse of the doubling of quote characters. *)
Fixpoint undouble (s : string) : string :=
  match s with
  | EmptyString => EmptyString
  | String c s' =>
      if Csv.is_quote c
      then match s' with
           | String c' s'' =>
               if Csv.is_quote c' then String c (undouble s'') else String c (undouble s')
           | EmptyString => String c EmptyString
           end
      else String c (undouble s')
  end.

(** The text [String(val ?? "")] of a value in a bulk export cell. *)
Definition cell_text (nts : JSNumber -> string) (val : JSValue) : string :=
  to_string nts (nullish val (JStr "")).

(** The names of the files the two exports write. *)
Definition leads_file (clientId : string) (timestamp : Z) : string :=
  "Leads_" +:+ clientId +:+ "_" +:+ dec timestamp +:+ ".csv".


(** The whole text of an export of [rows]. *)
Definition export_text (nts : JSNumber -> string) (rows : list Obj) : string :=
  String.concat ""
    match rows with
    | [] => []
    | first :: _ => BulkExport.header_row first :: map (BulkExport.row_str nts) rows
    end.


Definition two_leads : list Obj :=
  [ [("id", int 1); ("client_id", JStr "acme"); ("name", JStr ("Ann " +:+ quote_s +:+ "A" +:+ quote_s))];
    [("id", int 2); ("client_id", JStr "acme"); ("name", JNull)] ].

(** A datastore that serves one full page and then fails. *)
Definition failing_after_one_page (from to : nat) : BulkExport.FetchResult :=
  if (from =? 0)%nat
  then BulkExport.FetchData (Some (repeat [("id", int 7)] 1000))
  else BulkExport.FetchError "connection reset".

(** A field of the emitted file, stated on its own: the text without its
    NUL characters and with every quote character doubled, between quote
    characters. *)
Fixpoint csv_body (s : string) : string :=
  match s with
  | EmptyString => EmptyString
  | String c s' =>
      if Ascii.eqb c "000"%char then csv_body s'
      else if Ascii.eqb c "034"%char then String c (String c (csv_body s'))
      else String c (csv_body s')
  end.

Definition csv_field (text : string) : string :=
  String "034"%char (csv_body text +:+ String "034"%char "").

(** The text of a value in a field: nothing for [null] and [undefined]. *)
Definition field_text (nts : JSNumber -> string) (v : JSValue) : string :=
  match v with
  | JUndefined | JNull => ""
  | _ => to_string nts v
  end.

(** The phone as the serialised row carries it: wrapped as an equals sign
    and the value between quotes, unless it is empty. *)
Definition wrapped (phone : string) : string :=
  if String.eqb phone "" then ""
  else String "="%char (String "034"%char (phone +:+ String "034"%char "")).


(** Ascending order of the values of a column, stated on its own: NULL
    comes last, integers go by value and text by its bytes; nothing is said
    of an integer against a text, which one column does not hold. *)
Definition ascending (a b : Limiter.SqlVal) : Prop :=
  match a, b with
  | _, Limiter.SqlNull => True
  | Limiter.SqlNull, _ => False
  | Limiter.SqlInt x, Limiter.SqlInt y => x <= y
  | Limiter.SqlStr x, Limiter.SqlStr y => String.compare x y <> Gt
  | _, _ => True
  end.

(** Files that have a column [rn] of their own. *)
Definition own_rn_high : Limiter.Table :=
  {| Limiter.columns := ["company"; "linkedin"; "rn"];
     Limiter.rows := [ [Limiter.SqlStr "A"; Limiter.SqlStr "in/a"; Limiter.SqlInt 7] ] |}.

Definition own_rn_low : Limiter.Table :=
  {| Limiter.columns := ["company"; "linkedin"; "rn"];
     Limiter.rows :=
       [ [Limiter.SqlStr "A"; Limiter.SqlStr "in/a"; Limiter.SqlInt 0];
         [Limiter.SqlStr "A"; Limiter.SqlStr "in/b"; Limiter.SqlInt 0];
         [Limiter.SqlStr "A"; Limiter.SqlStr "in/c"; Limiter.SqlInt 0] ] |}.

(** A text with every quote character doubled. *)
Fixpoint doubled (s : string) : string :=
  match s with
  | EmptyString => EmptyString
  | String c s' =>
      if Ascii.eqb c "034"%char then String c (String c (doubled s'))
      else String c (doubled s')
  end.

(** What makes the [try] block of a row throw, read off the outcome of the
    request: the message of a rejected request, or that of the TypeError
    of [response.data.phone] on a response, or a [data], that is [null] or
    [undefined]; [None] when the block runs to its end. *)
Definition lookup_failure (outcome : Enrich.Outcome) : option string :=
  match outcome with
  | Enrich.Rejected message => Some message
  | Enrich.Resolved JUndefined => Some "Cannot read properties of undefined (reading 'data')"
  | Enrich.Resolved JNull => Some "Cannot read properties of null (reading 'data')"
  | Enrich.Resolved (JObj response) =>
      match get "data" response with
      | JUndefined => Some "Cannot read properties of undefined (reading 'phone')"
      | JNull => Some "Cannot read properties of null (reading 'phone')"
      | _ => None
      end
  | Enrich.Resolved _ => Some "Cannot read properties of undefined (reading 'phone')"
  end.

(** The rows the datastore serves on page [p], the range from [p * 1000]
    to [p * 1000 + 999]: none when it answers without data or fails. *)
Definition served (select_range : nat -> nat -> BulkExport.FetchResult) (p : nat) : list Obj :=
  match select_range (p * 1000)%nat (p * 1000 + 1000 - 1)%nat with
  | BulkExport.FetchData (Some data) => data
  | _ => []
  end.

(** The rows of the pages [from] to [to], in order. *)
Definition fetched_pages (select_range : nat -> nat -> BulkExport.FetchResult)
    (from to : nat) : list Obj :=
  flat_map (served select_range) (seq from (S (to - from))).

(** The lines of an export, stated on their own: the names of the columns
    joined by commas; the values of a row between quote characters, quote
    characters doubled, [null] and [undefined] as the empty text, joined by
    commas; a line feed ends each. *)
Definition header_line (first : Obj) : string :=
  String.concat "," (map fst first) +:+ String "010"%char "".

Definition row_line (nts : JSNumber -> string) (row : Obj) : string :=
  String.concat ","
    (map (fun val => String "034"%char (doubled (field_text nts val) +:+ String "034"%char ""))
       (map snd row))
  +:+ String "010"%char "".

(** * Properties *)

(** ** Objects *)

Lemma get_set_eq (k : string) (v : JSValue) (o : Obj) : get k (set k v o) = v.
Proof.
  induction o as [|[k' v'] o IH]; simpl.
  - by rewrite String.eqb_refl.
  - destruct (String.eqb k k') eqn:E; simpl.
    + by rewrite String.eqb_refl.
    + by rewrite E.
Qed.

Lemma get_set_ne (k k0 : string) (v : JSValue) (o : Obj) :
  k0 <> k -> get k0 (set k v o) = get k0 o.
Proof.
  intros Hne. induction o as [|[k' v'] o IH]; simpl.
  - apply String.eqb_neq in Hne. by rewrite Hne.
  - destruct (String.eqb k k') eqn:E; simpl.
    + apply String.eqb_eq in E as <-.
      apply String.eqb_neq in Hne. by rewrite Hne.
    + by rewrite IH.
Qed.

Lemma keys_set_keep (k k0 : string) (v : JSValue) (o : Obj) :
  In k0 (keys o) -> In k0 (keys (set k v o)).
Proof.
  induction o as [|[k' v'] o IH]; simpl; [done|].
  intros [<-|Hin]; destruct (String.eqb k k') eqn:E; simpl; auto.
  apply String.eqb_eq in E as ->. by left.
Qed.

Lemma keys_set_new (k : string) (v : JSValue) (o : Obj) : In k (keys (set k v o)).
Proof.
  induction o as [|[k' v'] o IH]; simpl; [by left|].
  destruct (String.eqb k k') eqn:E; simpl; auto.
Qed.

Lemma keys_rest_without (k : string) (o : Obj) : ~ In k (keys (rest_without k o)).
Proof.
  unfold keys, rest_without. rewrite in_map_iff. intros ([k' v] & Hk & Hin).
  apply filter_In in Hin as [_ Hb]. simpl in *. subst k'.
  by rewrite String.eqb_refl in Hb.
Qed.

Lemma get_absent (k : string) (o : Obj) : ~ In k (keys o) -> get k o = JUndefined.
Proof.
  induction o as [|[k' v'] o IH]; simpl; [done|].
  intros Hnot. destruct (String.eqb k k') eqn:E.
  - apply String.eqb_eq in E. subst k'. tauto.
  - apply IH. tauto.
Qed.

Lemma get_rest_without_ne (k k0 : string) (o : Obj) :
  k0 <> k -> get k0 (rest_without k o) = get k0 o.
Proof.
  intros Hne. induction o as [|[k' v'] o IH]; simpl; [done|].
  destruct (String.eqb k k') eqn:E; simpl.
  - apply String.eqb_eq in E as <-.
    apply String.eqb_neq in Hne. by rewrite Hne.
  - by rewrite IH.
Qed.

(** ** Phone cleaning *)

Lemma cleaned_digits_and_plus (s : string) :
  string_forall digit_or_plus (replace_class Phone.not_digit_or_plus "" s) = true.
Proof.
  unfold string_forall. induction s as [|c s IH]; simpl; [done|].
  unfold Phone.not_digit_or_plus at 1.
  destruct (is_digit c || is_plus c) eqn:E; simpl; [|done].
  unfold digit_or_plus at 1. by rewrite E.
Qed.

Lemma replace_is_keep (s : string) :
  replace_class Phone.not_digit_or_plus "" s = Phone.keep_digits_and_plus s.
Proof.
  induction s as [|c s IH]; simpl; [done|].
  unfold Phone.not_digit_or_plus at 1.
  destruct (is_digit c || is_plus c); simpl; by rewrite IH.
Qed.

Lemma cleanPhoneNumber_is_string (v : JSValue) : exists s, Phone.cleanPhoneNumber v = JStr s.
Proof.
  unfold Phone.cleanPhoneNumber.
  destruct v as [| | | | |[|x l]|]; try destruct x; eauto.
Qed.

Lemma cleanPhoneNumber_unwrapped (v : JSValue) :
  Phone.cleanPhoneNumber v =
  match Phone.unwrapped v with
  | JStr s => JStr (replace_class Phone.not_digit_or_plus "" s)
  | _ => JStr "Error"
  end.
Proof. reflexivity. Qed.

(** C3, as the specification words it (only a leading plus sign is kept),
    fails: a plus sign inside the number survives the cleaning. *)
Lemma cleanPhoneNumber_keeps_inner_plus :
  Phone.cleanPhoneNumber (JStr "1+2") = JStr "1+2" /\
  Phone.clean_reference_spec (JStr "1+2") = JStr "12" /\
  Phone.cleanPhoneNumber (JStr "1+2") <> Phone.clean_reference_spec (JStr "1+2").
Proof. repeat split; try reflexivity. discriminate. Qed.

(** C3, amended: [cleanPhoneNumber] equals the reference definition that
    takes the first element of an array, answers [Error] for a value that is
    not a string, and otherwise strips every character that is neither a
    digit nor a plus sign, wherever the plus sign stands. Cleaning
    [+1 (415) 555-0100] gives [+14155550100], and the payloads that are not
    strings give [Error]. *)
Theorem cleanPhoneNumber_equals_reference :
  (forall raw, Phone.cleanPhoneNumber raw = Phone.clean_reference_any_plus raw) /\
  Phone.cleanPhoneNumber (JStr "+1 (415) 555-0100") = JStr "+14155550100" /\
  Phone.cleanPhoneNumber JUndefined = JStr "Error" /\
  Phone.cleanPhoneNumber JNull = JStr "Error" /\
  (forall b, Phone.cleanPhoneNumber (JBool b) = JStr "Error") /\
  (forall n, Phone.cleanPhoneNumber (JNum n) = JStr "Error") /\
  (forall o, Phone.cleanPhoneNumber (JObj o) = JStr "Error") /\
  Phone.cleanPhoneNumber (JArr []) = JStr "Error" /\
  (forall n rest, Phone.cleanPhoneNumber (JArr (JNum n :: rest)) = JStr "Error").
Proof.
  split; [|repeat split; reflexivity].
  intros raw. unfold Phone.clean_reference_any_plus.
  rewrite cleanPhoneNumber_unwrapped.
  destruct raw as [| | | | |[|x l]|]; simpl; try reflexivity.
  - by rewrite replace_is_keep.
  - destruct x; try reflexivity. by rewrite replace_is_keep.
Qed.

(** C10: [cleanPhoneNumber] returns a string on every value; when the value
    after unwrapping an array is a string the result holds only digits and
    plus signs and is not the word [Error]; and [Error] is returned exactly
    when the value after unwrapping is not a string. *)
Theorem cleanPhoneNumber_total :
  forall v : JSValue,
    (exists s, Phone.cleanPhoneNumber v = JStr s) /\
    (forall s, Phone.unwrapped v = JStr s ->
       exists r, Phone.cleanPhoneNumber v = JStr r /\
                 string_forall digit_or_plus r = true /\
                 r <> "Error") /\
    (Phone.cleanPhoneNumber v = JStr "Error" <-> is_string (Phone.unwrapped v) = false).
Proof.
  intros v. split; [apply cleanPhoneNumber_is_string|].
  rewrite cleanPhoneNumber_unwrapped. split.
  - intros s ->. eexists. split; [reflexivity|].
    split; [apply cleaned_digits_and_plus|].
    intros Heq. pose proof (cleaned_digits_and_plus s) as H.
    rewrite Heq in H. discriminate H.
  - destruct (Phone.unwrapped v) as [| | | |s| |] eqn:E; simpl; try (split; done).
    split; [|done]. intros Heq. exfalso.
    pose proof (cleaned_digits_and_plus s) as H.
    injection Heq as Heq. rewrite Heq in H. discriminate H.
Qed.

Lemma cleanPhoneNumber_total_witness :
  Phone.unwrapped (JArr [JStr "+1 a+2"; JNull]) = JStr "+1 a+2" /\
  exists r, Phone.cleanPhoneNumber (JArr [JStr "+1 a+2"; JNull]) = JStr r /\
            string_forall digit_or_plus r = true /\ r <> "Error".
Proof.
  split; [reflexivity|].
  apply (proj1 (proj2 (cleanPhoneNumber_total (JArr [JStr "+1 a+2"; JNull]))) "+1 a+2").
  reflexivity.
Defined.

(** ** The enrichment loop *)

Lemma enrich_row_spec (axios_post : nat -> JSValue -> Enrich.Outcome) (row : Obj)
    (st : Enrich.LoopState) :
  Enrich.results (Enrich.enrich_row axios_post row st)
    = Enrich.results st ++ [enriched axios_post (Enrich.calls st) row]
  /\ Enrich.calls (Enrich.enrich_row axios_post row st) = S (Enrich.calls st).
Proof.
  unfold Enrich.enrich_row, enriched, phone_for.
  destruct (Enrich.try_lookup axios_post (Enrich.calls st) row); simpl; auto.
Qed.

Lemma enrich_loop_results (axios_post : nat -> JSValue -> Enrich.Outcome) (limited : list Obj) :
  forall st : Enrich.LoopState,
    Enrich.results (Enrich.enrich_loop axios_post limited st)
    = Enrich.results st
      ++ imap (fun i row => enriched axios_post (Enrich.calls st + i) row) limited.
Proof.
  induction limited as [|row rest IH]; intros st; simpl.
  - by rewrite app_nil_r.
  - rewrite IH. destruct (enrich_row_spec axios_post row st) as [-> ->].
    rewrite <- app_assoc. simpl. rewrite Nat.add_0_r. do 2 f_equal.
    apply imap_ext. intros i x _. simpl. f_equal. lia.
Qed.

Lemma enrich_results (axios_post : nat -> JSValue -> Enrich.Outcome) (limited : list Obj) :
  Enrich.results (Enrich.enrich axios_post limited) = imap (enriched axios_post) limited.
Proof. unfold Enrich.enrich. by rewrite enrich_loop_results. Qed.

Lemma phone_for_string (axios_post : nat -> JSValue -> Enrich.Outcome) (n : nat) (row : Obj) :
  exists s, phone_for axios_post n row = JStr s.
Proof.
  unfold phone_for, Enrich.try_lookup.
  destruct (axios_post n (get "linkedin" row)) as [m|response]; [eauto|].
  destruct (member response "data") as [data|m]; [|eauto].
  destruct (member data "phone") as [rawPhone|m]; [|eauto].
  apply cleanPhoneNumber_is_string.
Qed.

Lemma phone_for_rejected (axios_post : nat -> JSValue -> Enrich.Outcome) (n : nat) (row : Obj)
    (message : string) :
  axios_post n (get "linkedin" row) = Enrich.Rejected message ->
  phone_for axios_post n row = JStr "Not Found".
Proof. unfold phone_for, Enrich.try_lookup. by intros ->. Qed.

(** C1: the enrichment loop produces one output row per retained row, in
    order; the output row has every field of the row (with its value, the
    [phonenumber] field apart) and a [phonenumber] that is a string,
    whatever the lookup does: reject, time out, or resolve with any body.
    A rejected lookup leaves [Not Found], and the rows after it are
    processed all the same. *)
Theorem enrichment_one_row_each :
  forall (axios_post : nat -> JSValue -> Enrich.Outcome) (limited : list Obj),
    length (Enrich.results (Enrich.enrich axios_post limited)) = length limited /\
    forall (i : nat) (row : Obj),
      limited !! i = Some row ->
      exists (out_row : Obj) (phone : string),
        Enrich.results (Enrich.enrich axios_post limited) !! i = Some out_row /\
        get "phonenumber" out_row = JStr phone /\
        (forall k, k <> "phonenumber" -> get k out_row = get k row) /\
        (forall k, In k (keys row) -> In k (keys out_row)) /\
        (forall message,
           axios_post i (get "linkedin" row) = Enrich.Rejected message ->
           phone = "Not Found").
Proof.
  intros axios_post limited. rewrite enrich_results. split.
  - apply length_imap.
  - intros i row Hrow.
    destruct (phone_for_string axios_post i row) as [phone Hphone].
    exists (enriched axios_post i row), phone.
    split; [by rewrite list_lookup_imap, Hrow|].
    unfold enriched. rewrite get_set_eq. split; [done|].
    split; [intros k Hk; by apply get_set_ne|].
    split; [intros k Hk; by apply keys_set_keep|].
    intros message Hrej. rewrite (phone_for_rejected _ _ _ _ Hrej) in Hphone.
    by injection Hphone.
Qed.

Lemma enrichment_one_row_each_witness :
  three_rows !! 2%nat = Some [("company", JStr "B"); ("linkedin", JStr "in/c"); ("rn", int 1)] /\
  exists (out_row : Obj) (phone : string),
    Enrich.results (Enrich.enrich flaky_service three_rows) !! 2%nat = Some out_row /\
    get "phonenumber" out_row = JStr phone /\
    (forall k, k <> "phonenumber" ->
       get k out_row = get k [("company", JStr "B"); ("linkedin", JStr "in/c"); ("rn", int 1)]) /\
    (forall k, In k (keys [("company", JStr "B"); ("linkedin", JStr "in/c"); ("rn", int 1)]) ->
       In k (keys out_row)) /\
    (forall message,
       flaky_service 2 (get "linkedin" [("company", JStr "B"); ("linkedin", JStr "in/c"); ("rn", int 1)])
         = Enrich.Rejected message ->
       phone = "Not Found").
Proof.
  split; [reflexivity|].
  apply (proj2 (enrichment_one_row_each flaky_service three_rows) 2%nat).
  reflexivity.
Defined.

(** C4 on the code: when the lookup succeeds and the body has no phone, a
    [null] phone or an empty phone, the sentinel [Not Found] goes through
    [cleanPhoneNumber], which strips all of it: the row gets the empty
    string, not [Not Found]. *)
Theorem absent_phone_gives_empty_string :
  forall row : Obj,
    Enrich.results (Enrich.enrich (answering (JObj [])) [row])
      = [set "phonenumber" (JStr "") row] /\
    Enrich.results (Enrich.enrich (answering (JObj [("phone", JNull)])) [row])
      = [set "phonenumber" (JStr "") row] /\
    Enrich.results (Enrich.enrich (answering (JObj [("phone", JStr "")])) [row])
      = [set "phonenumber" (JStr "") row] /\
    get "phonenumber" (set "phonenumber" (JStr "") row) <> JStr "Not Found".
Proof.
  intros row. repeat split; try reflexivity.
  rewrite get_set_eq. discriminate.
Qed.

(** ** Serialisation *)

Lemma keys_set_inv (k k0 : string) (v : JSValue) (o : Obj) :
  In k0 (keys (set k v o)) -> k0 = k \/ In k0 (keys o).
Proof.
  induction o as [|[k' v'] o IH]; simpl.
  - intros [<-|[]]. by left.
  - destruct (String.eqb k k') eqn:E; simpl.
    + intros [<-|Hin]; auto.
    + intros [<-|Hin]; auto. destruct (IH Hin); auto.
Qed.

Lemma format_field_quoted (nts : JSNumber -> string) (field : JSValue) :
  exists body, Csv.format_field nts true field = Csv.quoted body.
Proof.
  unfold Csv.format_field.
  destruct (Csv.contains Csv.is_quote _); [eauto|].
  rewrite orb_true_r. eauto.
Qed.

Lemma format_rows_quoted (nts : JSNumber -> string) (rows : list Obj) (line : list string)
    (field : string) :
  In line (Csv.format_rows nts true rows) -> In field line ->
  exists body, field = Csv.quoted body.
Proof.
  unfold Csv.format_rows. destruct rows as [|first rows']; [done|].
  intros [<-|Hline] Hfield.
  - apply in_map_iff in Hfield as (h & <- & _). apply format_field_quoted.
  - apply in_map_iff in Hline as (row & <- & _).
    apply in_map_iff in Hfield as (h & <- & _). apply format_field_quoted.
Qed.

Lemma safe_row_spec (nts : JSNumber -> string) (row : Obj) (phone : string) :
  get "phonenumber" row = JStr phone ->
  get "rn" (Csv.safe_row nts row) = JUndefined /\
  ~ In "rn" (keys (Csv.safe_row nts row)) /\
  get "phonenumber" (Csv.safe_row nts row)
    = JStr (if String.eqb phone "" then "" else "=" +:+ Csv.quoted phone) /\
  (forall k, k <> "rn" -> k <> "phonenumber" -> get k (Csv.safe_row nts row) = get k row).
Proof.
  intros Hphone. unfold Csv.safe_row. rewrite Hphone. simpl.
  assert (Hrn : ~ In "rn" (keys (set "phonenumber"
            (if negb (String.eqb phone "")
             then JStr ("=" +:+ Csv.quoted phone) else JStr "")
            (rest_without "rn" row)))).
  { intros Hin. apply keys_set_inv in Hin as [Heq|Hin]; [discriminate|].
    by apply keys_rest_without in Hin. }
  split; [by apply get_absent|]. split; [done|]. split.
  - rewrite get_set_eq. by destruct (String.eqb phone "").
  - intros k Hk1 Hk2. rewrite get_set_ne by done. by apply get_rest_without_ne.
Qed.

Lemma has_keys (k : string) (o : Obj) : has k o = true <-> In k (keys o).
Proof.
  unfold has. rewrite existsb_exists. split.
  - intros (k' & Hin & Heq). apply String.eqb_eq in Heq. by subst.
  - intros Hin. exists k. split; [done|apply String.eqb_refl].
Qed.

Lemma keys_set (k : string) (v : JSValue) (o : Obj) :
  keys (set k v o) = if has k o then keys o else keys o ++ [k].
Proof.
  induction o as [|[k' v'] o IH]; [done|].
  unfold has in *. simpl. destruct (String.eqb k k') eqn:E; simpl.
  - apply String.eqb_eq in E. by subst.
  - rewrite IH. by destruct (existsb (String.eqb k) (keys o)).
Qed.

Lemma keys_rest_without_filter (k : string) (o : Obj) :
  keys (rest_without k o) = List.filter (fun k' => negb (String.eqb k k')) (keys o).
Proof.
  induction o as [|[k' v'] o IH]; [done|]. simpl.
  destruct (String.eqb k k'); simpl; by rewrite IH.
Qed.

Lemma safe_row_keys (nts : JSNumber -> string) (axios_post : nat -> JSValue -> Enrich.Outcome)
    (i : nat) (row : Obj) :
  keys (Csv.safe_row nts (enriched axios_post i row))
  = List.filter not_rn (with_phonenumber_key row).
Proof.
  assert (Hkeys : keys (enriched axios_post i row) = with_phonenumber_key row).
  { unfold enriched. apply keys_set. }
  unfold Csv.safe_row. rewrite keys_set.
  assert (Hhas : has "phonenumber" (rest_without "rn" (enriched axios_post i row)) = true).
  { apply has_keys. rewrite keys_rest_without_filter. apply filter_In.
    split; [|reflexivity]. unfold enriched. apply keys_set_new. }
  by rewrite Hhas, keys_rest_without_filter, Hkeys.
Qed.

Lemma join_concat (sep : string) (l : list string) : join sep l = String.concat sep l.
Proof.
  induction l as [|x l IH]; [done|]. destruct l as [|y l]; [done|].
  cbn [join String.concat]. cbn [join] in IH. by rewrite IH.
Qed.

Lemma replace_absent (cls : ascii -> bool) (by_ s : string) :
  Csv.contains cls s = false -> replace_class cls by_ s = s.
Proof.
  unfold Csv.contains. induction s as [|c s IH]; simpl; [done|].
  intros H. apply orb_false_iff in H as [Hc Hs]. by rewrite Hc, IH.
Qed.

Lemma csv_body_spec (t : string) :
  replace_class Csv.is_quote (quote_s +:+ quote_s) (replace_class Csv.is_nul "" t)
  = csv_body t.
Proof.
  induction t as [|c t IH]; [done|]. cbn [replace_class csv_body].
  unfold Csv.is_nul at 1. destruct (Ascii.eqb c "000"%char) eqn:En.
  - exact IH.
  - cbn [replace_class]. unfold Csv.is_quote at 1, quote.
    destruct (Ascii.eqb c "034"%char) eqn:Eq.
    + apply Ascii.eqb_eq in Eq. subst c. rewrite IH. reflexivity.
    + by rewrite IH.
Qed.

Lemma format_field_spec (nts : JSNumber -> string) (field : JSValue) :
  Csv.format_field nts true field = csv_field (field_text nts field).
Proof.
  unfold Csv.format_field, csv_field.
  assert (Htext : (if Csv.is_nil field then "" else to_string nts field)
                  = field_text nts field) by by destruct field.
  rewrite Htext. rewrite <- csv_body_spec.
  destruct (Csv.contains Csv.is_quote (replace_class Csv.is_nul "" (field_text nts field)))
    eqn:E.
  - reflexivity.
  - rewrite orb_true_r. by rewrite (replace_absent _ _ _ E).
Qed.

(** C7, as stated, fails: a phone without any digit is cleaned to the empty
    string by the enrichment loop; the serialised row then carries the
    empty string, and the emitted line an empty quoted field, not the
    wrapping of the empty value. *)
Lemma empty_phone_is_not_wrapped :
  map (get "phonenumber")
    (Enrich.results
       (Enrich.enrich (answering (JObj [("phone", JStr "n/a")]))
          [[("company", JStr "A"); ("linkedin", JStr "in/a"); ("rn", int 1)]]))
    = [JStr ""] /\
  map (get "phonenumber")
    (Csv.safeResults integer_text
       (Enrich.results
          (Enrich.enrich (answering (JObj [("phone", JStr "n/a")]))
             [[("company", JStr "A"); ("linkedin", JStr "in/a"); ("rn", int 1)]])))
    = [JStr ""] /\
  JStr "" <> JStr ("=" +:+ Csv.quoted "") /\
  Csv.written_fields integer_text
    (Enrich.results
       (Enrich.enrich (answering (JObj [("phone", JStr "n/a")]))
          [[("company", JStr "A"); ("linkedin", JStr "in/a"); ("rn", int 1)]]))
    = [ [csv_field "company"; csv_field "linkedin"; csv_field "phonenumber"];
        [csv_field "A"; csv_field "in/a"; String "034"%char (String "034"%char "")] ] /\
  String "034"%char (String "034"%char "")
    <> csv_field (String "="%char (String "034"%char (String "034"%char ""))).
Proof. repeat split; try reflexivity; discriminate. Qed.

(** C7, amended: in every serialised row of the enrichment pipeline the
    [rn] field is absent and the other fields keep their values; the
    [phonenumber] field is the enrichment's value wrapped as an equals sign
    and the value between quotes when that value is not empty, and the empty
    string when it is empty; the value is not cleaned again. In the emitted
    CSV the header is the quoted names of the columns of the first row,
    [rn] left out and [phonenumber] among them, and the line of each row
    holds, under each of these columns, the quoted field of the row's
    value, which under [phonenumber] is that wrapping (or the empty field);
    every field of every line is quoted, and the file is the lines joined
    by line feeds, their fields by commas. *)
Theorem serialised_rows_shape :
  forall (nts : JSNumber -> string) (axios_post : nat -> JSValue -> Enrich.Outcome)
         (first : Obj) (rest : list Obj),
    (forall (i : nat) (safe : Obj),
        Csv.safeResults nts (Enrich.results (Enrich.enrich axios_post (first :: rest))) !! i
        = Some safe ->
        exists (row : Obj) (phone : string),
          Enrich.results (Enrich.enrich axios_post (first :: rest)) !! i = Some row /\
          get "phonenumber" row = JStr phone /\
          get "rn" safe = JUndefined /\
          ~ In "rn" (keys safe) /\
          get "phonenumber" safe = JStr (wrapped phone) /\
          (forall k, k <> "rn" -> k <> "phonenumber" -> get k safe = get k row)) /\
    ~ In "rn" (List.filter not_rn (with_phonenumber_key first)) /\
    In "phonenumber" (List.filter not_rn (with_phonenumber_key first)) /\
    (exists lines : list (list string),
        Csv.written_fields nts (Enrich.results (Enrich.enrich axios_post (first :: rest)))
        = map csv_field (List.filter not_rn (with_phonenumber_key first)) :: lines /\
        length lines = length (first :: rest) /\
        (forall (i : nat) (row : Obj),
            (first :: rest) !! i = Some row ->
            exists (out : Obj) (phone : string),
              Enrich.results (Enrich.enrich axios_post (first :: rest)) !! i = Some out /\
              get "phonenumber" out = JStr phone /\
              lines !! i
              = Some (map (fun k =>
                             csv_field (if String.eqb k "phonenumber" then wrapped phone
                                        else field_text nts (get k row)))
                        (List.filter not_rn (with_phonenumber_key first))))) /\
    (forall (line : list string) (field : string),
        In line (Csv.written_fields nts
                   (Enrich.results (Enrich.enrich axios_post (first :: rest)))) ->
        In field line ->
        exists body, field = String "034"%char (body +:+ String "034"%char "")) /\
    Csv.written_file nts (Enrich.results (Enrich.enrich axios_post (first :: rest)))
    = String.concat (String "010"%char "")
        (map (String.concat ",")
           (Csv.written_fields nts
              (Enrich.results (Enrich.enrich axios_post (first :: rest))))) /\
    Csv.written_fields nts (Enrich.results (Enrich.enrich axios_post [])) = [].
Proof.
  intros nts axios_post first rest.
  split; [|split; [|split; [|split; [|split; [|split]]]]].
  - intros i safe Hsafe. unfold Csv.safeResults in Hsafe.
    rewrite list_lookup_fmap in Hsafe.
    destruct (Enrich.results (Enrich.enrich axios_post (first :: rest)) !! i)
      as [row|] eqn:Hrow; [|discriminate].
    simpl in Hsafe. injection Hsafe as <-.
    rewrite enrich_results, list_lookup_imap in Hrow.
    destruct ((first :: rest) !! i) as [row0|]; [|discriminate].
    simpl in Hrow. injection Hrow as <-.
    destruct (phone_for_string axios_post i row0) as [phone Hphone].
    exists (enriched axios_post i row0), phone. split; [done|].
    assert (Hget : get "phonenumber" (enriched axios_post i row0) = JStr phone).
    { unfold enriched. by rewrite get_set_eq. }
    split; [done|]. by apply safe_row_spec.
  - intros Hin. apply filter_In in Hin as [_ H]. discriminate H.
  - apply filter_In. split; [|reflexivity].
    unfold with_phonenumber_key. destruct (has "phonenumber" first) eqn:E.
    + by apply has_keys.
    + apply in_or_app. right. by left.
  - set (cols := List.filter not_rn (with_phonenumber_key first)).
    exists (map (fun row => map (fun h => Csv.format_field nts true (get h row)) cols)
              (map (Csv.safe_row nts) (imap (enriched axios_post) (first :: rest)))).
    rewrite enrich_results. split; [|split].
    + unfold Csv.written_fields, Csv.format_rows, Csv.safeResults.
      cbn [imap map]. rewrite safe_row_keys. fold cols. f_equal.
      apply map_ext. intros k. apply format_field_spec.
    + by rewrite !length_map, length_imap.
    + intros i row Hrow.
      destruct (phone_for_string axios_post i row) as [phone Hphone].
      assert (Hget : get "phonenumber" (enriched axios_post i row) = JStr phone).
      { unfold enriched. by rewrite get_set_eq. }
      exists (enriched axios_post i row), phone.
      split; [by rewrite list_lookup_imap, Hrow|]. split; [exact Hget|].
      rewrite !list_lookup_fmap, list_lookup_imap, Hrow. cbn [fmap option_fmap option_map].
      f_equal. apply map_ext_in. intros k Hk.
      rewrite format_field_spec. f_equal.
      destruct (safe_row_spec nts (enriched axios_post i row) phone Hget)
        as (_ & _ & Hp & Hother).
      destruct (String.eqb k "phonenumber") eqn:E.
      * apply String.eqb_eq in E. subst k. by rewrite Hp.
      * apply String.eqb_neq in E. rewrite Hother; [|
          intros ->; apply filter_In in Hk as [_ Hk]; discriminate Hk|done].
        unfold enriched. by rewrite get_set_ne.
  - intros line field Hline Hfield.
    destruct (format_rows_quoted nts _ line field Hline Hfield) as [body ->]. by exists body.
  - unfold Csv.written_file, Csv.written_fields, Csv.csv_text.
    rewrite join_concat. f_equal.
  - reflexivity.
Qed.

Lemma serialised_rows_shape_witness :
  three_rows !! 1%nat = Some [("company", JStr "A"); ("linkedin", JStr "in/b"); ("rn", int 2)] /\
  exists lines : list (list string),
    Csv.written_fields integer_text (Enrich.results (Enrich.enrich flaky_service three_rows))
    = map csv_field
        (List.filter not_rn
           (with_phonenumber_key
              [("company", JStr "A"); ("linkedin", JStr "in/a"); ("rn", int 1)]))
      :: lines /\
    length lines = length three_rows /\
    exists (out : Obj) (phone : string),
      Enrich.results (Enrich.enrich flaky_service three_rows) !! 1%nat = Some out /\
      get "phonenumber" out = JStr phone /\
      lines !! 1%nat
      = Some (map (fun k =>
                     csv_field
                       (if String.eqb k "phonenumber" then wrapped phone
                        else field_text integer_text
                               (get k [("company", JStr "A"); ("linkedin", JStr "in/b");
                                       ("rn", int 2)])))
                (List.filter not_rn
                   (with_phonenumber_key
                      [("company", JStr "A"); ("linkedin", JStr "in/a"); ("rn", int 1)]))).
Proof.
  split; [reflexivity|].
  destruct (proj1 (proj2 (proj2 (proj2
              (serialised_rows_shape integer_text flaky_service
                 [("company", JStr "A"); ("linkedin", JStr "in/a"); ("rn", int 1)]
                 [ [("company", JStr "A"); ("linkedin", JStr "in/b"); ("rn", int 2)];
                   [("company", JStr "B"); ("linkedin", JStr "in/c"); ("rn", int 1)] ])))))
    as (lines & Hfields & Hlen & Hline).
  exists lines. split; [exact Hfields|]. split; [exact Hlen|].
  apply (Hline 1%nat). reflexivity.
Defined.

(** ** Sorting *)

Section SortFacts.
Context {A : Type} (cmp : A -> A -> Z).

Lemma sort_insert_perm (x : A) (l : list A) : Permutation (sort_insert cmp x l) (x :: l).
Proof.
  induction l as [|y l IH]; simpl; [done|].
  destruct (cmp x y <=? 0); [done|].
  rewrite IH. apply perm_swap.
Qed.

Lemma sort_perm (l : list A) : Permutation (sort cmp l) l.
Proof.
  induction l as [|x l IH]; simpl; [done|].
  rewrite sort_insert_perm. by constructor.
Qed.

Hypothesis cmp_total : forall a b, cmp a b <= 0 \/ cmp b a <= 0.
Hypothesis cmp_trans : forall a b c, cmp a b <= 0 -> cmp b c <= 0 -> cmp a c <= 0.

Lemma sort_insert_sorted (x : A) (l : list A) :
  StronglySorted (before cmp) l -> StronglySorted (before cmp) (sort_insert cmp x l).
Proof.
  induction l as [|y l IH]; simpl; intros Hs.
  - repeat constructor.
  - apply StronglySorted_inv in Hs as [Hl Hy].
    destruct (cmp x y <=? 0) eqn:E.
    + apply Z.leb_le in E. constructor; [by constructor|].
      constructor; [done|].
      eapply Forall_impl; [exact Hy|]. intros z Hz. by eapply cmp_trans.
    + apply Z.leb_gt in E. constructor; [by apply IH|].
      eapply Permutation_Forall; [symmetry; apply sort_insert_perm|].
      constructor; [|done].
      destruct (cmp_total x y) as [H|H]; [lia|done].
Qed.

Lemma sort_sorted (l : list A) : StronglySorted (before cmp) (sort cmp l).
Proof.
  induction l as [|x l IH]; simpl; [constructor|]. by apply sort_insert_sorted.
Qed.

(** The first [n] of a sorted list stand before the others. *)
Lemma sort_take_drop (n : nat) (l : list A) (a b : A) :
  In a (take n (sort cmp l)) -> In b (drop n (sort cmp l)) -> before cmp a b.
Proof.
  intros Ha Hb. pose proof (sort_sorted l) as Hs.
  rewrite <- (take_drop n (sort cmp l)) in Hs.
  apply (StronglySorted_app_1_elem_of _ _ _ _ _ Hs); by apply list_elem_of_In.
Qed.
End SortFacts.

(** ** The windowed limit *)

Lemma sql_leb_total (a b : Limiter.SqlVal) :
  Limiter.sql_leb a b = true \/ Limiter.sql_leb b a = true.
Proof.
  destruct a as [|x|x], b as [|y|y]; simpl; auto.
  - destruct (Z.leb_spec x y); [auto|]. right. apply Z.leb_le. lia.
  - apply String.leb_total.
Qed.

Lemma sql_leb_trans (a b c : Limiter.SqlVal) :
  Limiter.sql_leb a b = true -> Limiter.sql_leb b c = true -> Limiter.sql_leb a c = true.
Proof.
  destruct a as [|x|x], b as [|y|y], c as [|z|z]; simpl; try done.
  - rewrite !Z.leb_le. lia.
  - intros H1 H2. apply Is_true_true. apply Is_true_true in H1, H2.
    change (String.le x z). by transitivity y.
Qed.

Lemma sql_leb_ascending (a b : Limiter.SqlVal) :
  Limiter.sql_leb a b = true -> ascending a b.
Proof.
  destruct a as [|x|x], b as [|y|y]; simpl; try done.
  - apply Z.leb_le.
  - unfold String.leb. by destruct (String.compare x y).
Qed.

Lemma order_by_before (col : string) (a b : Limiter.SqlRow) :
  Limiter.order_by col a b <= 0 <->
  Limiter.sql_leb (Limiter.column col a) (Limiter.column col b) = true.
Proof.
  unfold Limiter.order_by.
  destruct (Limiter.sql_leb (Limiter.column col a) (Limiter.column col b));
    [destruct (Limiter.sql_leb (Limiter.column col b) (Limiter.column col a))|];
    split; try done; lia.
Qed.

Lemma order_by_total (col : string) (a b : Limiter.SqlRow) :
  Limiter.order_by col a b <= 0 \/ Limiter.order_by col b a <= 0.
Proof. rewrite !order_by_before. apply sql_leb_total. Qed.

Lemma order_by_trans (col : string) (a b c : Limiter.SqlRow) :
  Limiter.order_by col a b <= 0 -> Limiter.order_by col b c <= 0 ->
  Limiter.order_by col a c <= 0.
Proof. rewrite !order_by_before. apply sql_leb_trans. Qed.

Lemma number_from_fst (n : Z) (l : list Limiter.SqlRow) :
  map fst (Limiter.number_from n l) = l.
Proof. revert n. induction l as [|r l IH]; intros n; simpl; [done|]. by rewrite IH. Qed.

Lemma number_from_limit (limit : Z) (l : list Limiter.SqlRow) :
  forall n : Z,
    List.filter (fun p => snd p <=? limit) (Limiter.number_from n l)
    = Limiter.number_from n (take (Z.to_nat (limit - n + 1)) l).
Proof.
  induction l as [|r l IH]; intros n; simpl.
  - by rewrite take_nil.
  - rewrite IH. destruct (Z.leb_spec n limit) as [Hle|Hgt].
    + replace (Z.to_nat (limit - n + 1)) with (S (Z.to_nat (limit - (n + 1) + 1))) by lia.
      reflexivity.
    + replace (Z.to_nat (limit - n + 1)) with 0%nat by lia.
      replace (Z.to_nat (limit - (n + 1) + 1)) with 0%nat by lia.
      reflexivity.
Qed.

Lemma number_from_in (l : list Limiter.SqlRow) :
  forall (k : Z) (r : Limiter.SqlRow) (n : Z),
    In (r, n) (Limiter.number_from k l) ->
    In r l /\ k <= n < k + Z.of_nat (length l).
Proof.
  induction l as [|x l IH]; intros k r n; simpl; [done|].
  intros [[= <- <-]|Hin].
  - split; [by left|lia].
  - apply IH in Hin as [Hr Hn]. split; [by right|lia].
Qed.

(** Numbering from [k] puts the number [i + k] after the row at index [i]. *)
Lemma number_from_imap (l : list Limiter.SqlRow) :
  forall k : Z,
    map Limiter.with_rn (Limiter.number_from k l)
    = imap (fun (i : nat) (r : Limiter.SqlRow) =>
              r ++ [("rn", Limiter.SqlInt (Z.of_nat i + k))]) l.
Proof.
  induction l as [|r l IH]; intros k; [done|].
  cbn [Limiter.number_from map imap]. f_equal. rewrite IH.
  apply imap_ext. intros i x _. unfold compose.
  by replace (Z.of_nat (S i) + k) with (Z.of_nat i + (k + 1)) by lia.
Qed.

(** *** Names of columns *)

Lemma column_app_lacks (c : string) (r tail : Limiter.SqlRow) :
  (forall k, In k (map fst r) -> Limiter.same_identifier c k = false) ->
  Limiter.column c (r ++ tail) = Limiter.column c tail.
Proof.
  induction r as [|[k v] r IH]; intros H; simpl; [done|].
  rewrite (H k) by (by left). apply IH. intros k' Hk'. apply H. by right.
Qed.

Lemma column_app_other (c k : string) (v : Limiter.SqlVal) (r : Limiter.SqlRow) :
  Limiter.same_identifier c k = false ->
  Limiter.column c (r ++ [(k, v)]) = Limiter.column c r.
Proof.
  intros Hc. induction r as [|[k' v'] r IH]; simpl.
  - by rewrite Hc.
  - by rewrite IH.
Qed.

Lemma column_app_found (c : string) (r tail : Limiter.SqlRow) (x : Z) :
  Limiter.column c r = Limiter.SqlInt x ->
  Limiter.column c (r ++ tail) = Limiter.SqlInt x.
Proof.
  induction r as [|[k v] r IH]; simpl; [done|].
  destruct (Limiter.same_identifier c k); [done|exact IH].
Qed.

Lemma named_keys (t : Limiter.Table) (r : Limiter.SqlRow) (k : string) :
  In r (Limiter.named t) -> In k (map fst r) -> In k (Limiter.columns t).
Proof.
  unfold Limiter.named. intros Hr Hk.
  apply in_map_iff in Hr as (vals & <- & _).
  apply in_map_iff in Hk as ([k' v] & <- & Hin).
  by apply in_combine_l in Hin.
Qed.

Lemma has_column_false (c : string) (cols : list string) (k : string) :
  Limiter.has_column c cols = false -> In k cols -> Limiter.same_identifier c k = false.
Proof.
  unfold Limiter.has_column. induction cols as [|k' cols IH]; simpl; [done|].
  intros H. apply orb_false_iff in H as [H1 H2]. intros [<-|Hin]; auto.
Qed.

Lemma rn_absent (t : Limiter.Table) (r : Limiter.SqlRow) :
  Limiter.has_column "rn" (Limiter.columns t) = false ->
  In r (Limiter.named t) ->
  forall k, In k (map fst r) -> Limiter.same_identifier "rn" k = false.
Proof.
  intros Hrn Hr k Hk. eapply has_column_false; [exact Hrn|]. by eapply named_keys.
Qed.

Lemma rn_is_text_absent (t : Limiter.Table) :
  Limiter.has_column "rn" (Limiter.columns t) = false ->
  Limiter.rn_is_text (Limiter.named t) = false.
Proof.
  intros Hrn. unfold Limiter.rn_is_text.
  destruct (existsb _ (Limiter.named t)) eqn:E; [|done].
  apply existsb_exists in E as (r & Hr & Htext).
  rewrite <- (app_nil_r r) in Htext.
  rewrite (column_app_lacks "rn" r [] (rn_absent t r Hrn Hr)) in Htext. discriminate.
Qed.

(** *** Lists *)

Lemma filter_flat_map {X Y : Type} (P : Y -> bool) (f : X -> list Y) (l : list X) :
  List.filter P (flat_map f l) = flat_map (fun x => List.filter P (f x)) l.
Proof. induction l as [|x l IH]; simpl; [done|]. by rewrite List.filter_app, IH. Qed.

Lemma map_flat_map {X Y Z' : Type} (g : Y -> Z') (f : X -> list Y) (l : list X) :
  map g (flat_map f l) = flat_map (fun x => map g (f x)) l.
Proof. induction l as [|x l IH]; simpl; [done|]. by rewrite map_app, IH. Qed.

Lemma filter_map_comm {X Y : Type} (P : Y -> bool) (f : X -> Y) (l : list X) :
  List.filter P (map f l) = map f (List.filter (fun x => P (f x)) l).
Proof.
  induction l as [|x l IH]; simpl; [done|]. rewrite IH. by destruct (P (f x)).
Qed.

Lemma filter_permutation {X : Type} (P : X -> bool) (l l' : list X) :
  Permutation l l' -> Permutation (List.filter P l) (List.filter P l').
Proof.
  induction 1 as [|x l l' _ IH|x y l|l l' l'' _ IH1 _ IH2]; simpl.
  - done.
  - destruct (P x); [by constructor|done].
  - destruct (P x), (P y); try done. apply perm_swap.
  - by transitivity (List.filter P l').
Qed.

Lemma filter_same_in {X : Type} (P Q : X -> bool) (l : list X) :
  (forall x, In x l -> P x = Q x) -> List.filter P l = List.filter Q l.
Proof.
  induction l as [|x l IH]; simpl; [done|]. intros H.
  rewrite (H x) by auto. rewrite IH by auto. done.
Qed.

Lemma flat_map_all_nil {X Y : Type} (f : X -> list Y) (l : list X) :
  (forall x, f x = []) -> flat_map f l = [].
Proof. intros H. induction l as [|x l IH]; simpl; [done|]. by rewrite H, IH. Qed.

Lemma filter_split_perm {X : Type} (P : X -> bool) (l : list X) :
  Permutation (List.filter P l ++ List.filter (fun x => negb (P x)) l) l.
Proof.
  induction l as [|x l IH]; simpl; [done|].
  destruct (P x); simpl.
  - by constructor.
  - rewrite <- Permutation_middle. by constructor.
Qed.

Lemma flat_map_perm {X Y : Type} (f g : X -> list Y) (l : list X) :
  (forall x, Permutation (f x) (g x)) -> Permutation (flat_map f l) (flat_map g l).
Proof.
  intros H. induction l as [|x l IH]; simpl; [done|]. by rewrite H, IH.
Qed.

Lemma flat_map_eq_in {X Y : Type} (f g : X -> list Y) (l : list X) :
  (forall x, In x l -> f x = g x) -> flat_map f l = flat_map g l.
Proof.
  induction l as [|x l IH]; simpl; [done|]. intros H.
  rewrite (H x) by auto. f_equal. apply IH. auto.
Qed.

(** Of blocks indexed by distinct keys, a filter that accepts one block
    whole and nothing of the others selects that block. *)
Lemma flat_map_select {X Y : Type} `{EqDecision X} (P : Y -> bool) (f : X -> list Y)
    (x0 : X) (l : list X) :
  List.NoDup l ->
  (forall x, x <> x0 -> List.filter P (f x) = []) ->
  List.filter P (f x0) = f x0 ->
  (~ In x0 l -> f x0 = []) ->
  List.filter P (flat_map f l) = f x0.
Proof.
  intros Hnd Hother Hsame Hnone. induction Hnd as [|x l Hx Hnd IH]; simpl.
  - symmetry. apply Hnone. intros [].
  - rewrite List.filter_app. destruct (decide (x = x0)) as [->|Hne].
    + rewrite Hsame. rewrite filter_flat_map.
      assert (Hrest : flat_map (fun x => List.filter P (f x)) l = []).
      { clear IH Hnone Hnd. induction l as [|y l IHl]; simpl; [done|].
        rewrite Hother, IHl; [done| |].
        - intros Hin. apply Hx. by right.
        - intros ->. apply Hx. by left. }
      by rewrite Hrest, app_nil_r.
    + rewrite (Hother x Hne). simpl. apply IH.
      intros Hnot. apply Hnone. intros [Heq|Hin]; [done|by apply Hnot].
Qed.

Lemma filter_none {X : Type} (P : X -> bool) (l : list X) :
  (forall x, In x l -> P x = false) -> List.filter P l = [].
Proof.
  induction l as [|x l IH]; simpl; [done|]. intros H.
  rewrite (H x) by auto. apply IH. auto.
Qed.

Lemma filter_all {X : Type} (P : X -> bool) (l : list X) :
  (forall x, In x l -> P x = true) -> List.filter P l = l.
Proof.
  induction l as [|x l IH]; simpl; [done|]. intros H.
  rewrite (H x) by auto. f_equal. apply IH. auto.
Qed.

Lemma filter_filter {X : Type} (P Q : X -> bool) (l : list X) :
  List.filter P (List.filter Q l) = List.filter (fun x => Q x && P x) l.
Proof.
  induction l as [|x l IH]; simpl; [done|].
  destruct (Q x); simpl; [destruct (P x)|]; by rewrite IH.
Qed.

Lemma StronglySorted_weaken {X : Type} (R1 R2 : X -> X -> Prop) (l : list X) :
  (forall a b, R1 a b -> R2 a b) -> StronglySorted R1 l -> StronglySorted R2 l.
Proof.
  intros HR. induction 1 as [|x l Hs IH Hall]; constructor; [done|].
  eapply Forall_impl; [exact Hall|]. auto.
Qed.

(** *** The numbered rows *)

(** The partitions of a table, put one after the other, are the table. *)
Lemma partitions_cover (col : string) (gs : list Limiter.SqlVal) :
  forall t : list Limiter.SqlRow,
    List.NoDup gs ->
    (forall r, In r t -> In (Limiter.column col r) gs) ->
    Permutation (flat_map (fun g => List.filter (Limiter.in_partition col g) t) gs) t.
Proof.
  induction gs as [|g gs IH]; intros t Hnd Hkeys; simpl.
  - destruct t as [|r t]; [done|]. destruct (Hkeys r); by left.
  - apply NoDup_cons_iff in Hnd as [Hg Hnd].
    rewrite <- (filter_split_perm (Limiter.in_partition col g) t) at 2.
    apply Permutation_app_head.
    rewrite <- (IH (List.filter (fun r => negb (Limiter.in_partition col g r)) t) Hnd).
    + rewrite (flat_map_eq_in
                 (fun g' => List.filter (Limiter.in_partition col g') t)
                 (fun g' => List.filter (Limiter.in_partition col g')
                              (List.filter (fun r => negb (Limiter.in_partition col g r)) t))
                 gs);
        [done|].
      intros g' Hg'. rewrite filter_filter. apply List.filter_ext. intros r.
      unfold Limiter.in_partition.
      destruct (bool_decide_reflect (Limiter.column col r = g')) as [Heq|Hne];
        [|by rewrite andb_false_r].
      rewrite andb_true_r. symmetry. apply negb_true_iff, bool_decide_eq_false.
      intros Heq'. apply Hg. congruence.
    + intros r Hr. apply filter_In in Hr as [Hr Hn].
      destruct (Hkeys r Hr) as [Heq|Hin]; [|done].
      unfold Limiter.in_partition in Hn.
      apply negb_true_iff, bool_decide_eq_false in Hn. congruence.
Qed.

(** The rows of a partition as the engine numbers them. *)
Lemma sorted_partition_perm (engine : Limiter.Engine) (g : Limiter.SqlVal)
    (t : list Limiter.SqlRow) :
  Permutation
    (sort (Limiter.order_by "linkedin")
       (Limiter.arrange engine (List.filter (Limiter.in_partition "company" g) t)))
    (List.filter (Limiter.in_partition "company" g) t).
Proof. rewrite sort_perm. apply Limiter.arrange_perm. Qed.

(** The numbered rows are the rows of the table, in some order. *)
Lemma rows_cover (engine : Limiter.Engine) (t : list Limiter.SqlRow) :
  Permutation (map fst (Limiter.row_number_over engine "company" "linkedin" t)) t.
Proof.
  unfold Limiter.row_number_over. rewrite map_flat_map.
  rewrite (flat_map_perm _
             (fun g => List.filter (Limiter.in_partition "company" g) t)).
  - apply partitions_cover.
    + apply NoDup_ListNoDup, NoDup_remove_dups.
    + intros r Hr. unfold Limiter.partitions.
      apply list_elem_of_In, elem_of_remove_dups, list_elem_of_In. by apply in_map.
  - intros g. rewrite number_from_fst. apply sorted_partition_perm.
Qed.

Lemma rows_cover_in (engine : Limiter.Engine) (t : list Limiter.SqlRow)
    (p : Limiter.SqlRow * Z) :
  In p (Limiter.row_number_over engine "company" "linkedin" t) -> In (fst p) t.
Proof.
  intros Hp. eapply Permutation_in; [apply (rows_cover engine)|]. by apply in_map.
Qed.

(** A numbered row: its partition and the bounds of its number. *)
Lemma numbered_row (engine : Limiter.Engine) (t : list Limiter.SqlRow)
    (r : Limiter.SqlRow) (n : Z) :
  In (r, n) (Limiter.row_number_over engine "company" "linkedin" t) ->
  In r t /\
  1 <= n <= Z.of_nat
              (length (List.filter
                         (Limiter.in_partition "company" (Limiter.column "company" r)) t)).
Proof.
  unfold Limiter.row_number_over. intros Hin.
  apply in_flat_map in Hin as (g & _ & Hin).
  apply number_from_in in Hin as [Hr Hn].
  rewrite (Permutation_length (sorted_partition_perm engine g t)) in Hn.
  eapply Permutation_in in Hr; [|apply sorted_partition_perm].
  apply filter_In in Hr as [Hr Hg]. unfold Limiter.in_partition in Hg.
  apply bool_decide_eq_true in Hg. subst g. split; [done|lia].
Qed.

(** The numbered rows of one company whose number is within the limit. *)
Lemma numbered_group (engine : Limiter.Engine) (limit : Z) (t : list Limiter.SqlRow)
    (G : Limiter.SqlVal) :
  List.filter (fun p => Limiter.in_partition "company" G (fst p))
    (List.filter (fun p => snd p <=? limit)
       (Limiter.row_number_over engine "company" "linkedin" t))
  = Limiter.number_from 1
      (take (Z.to_nat limit)
         (sort (Limiter.order_by "linkedin")
            (Limiter.arrange engine (List.filter (Limiter.in_partition "company" G) t)))).
Proof.
  unfold Limiter.row_number_over. rewrite filter_flat_map.
  assert (Hcompany : forall g p,
             In p (List.filter (fun p => snd p <=? limit)
                     (Limiter.number_from 1
                        (sort (Limiter.order_by "linkedin")
                           (Limiter.arrange engine
                              (List.filter (Limiter.in_partition "company" g) t))))) ->
             Limiter.column "company" (fst p) = g).
  { intros g p Hp. apply filter_In in Hp as [Hp _].
    assert (Hfst : In (fst p) (sort (Limiter.order_by "linkedin")
                      (Limiter.arrange engine
                         (List.filter (Limiter.in_partition "company" g) t)))).
    { rewrite <- (number_from_fst 1). by apply in_map. }
    eapply Permutation_in in Hfst; [|apply sorted_partition_perm].
    apply filter_In in Hfst as [_ Hg]. unfold Limiter.in_partition in Hg.
    by apply bool_decide_eq_true in Hg. }
  rewrite (flat_map_select _ _ G).
  - rewrite number_from_limit. do 2 f_equal. lia.
  - apply NoDup_ListNoDup, NoDup_remove_dups.
  - intros g Hg. apply filter_none. intros p Hp.
    apply Hcompany in Hp. unfold Limiter.in_partition.
    apply bool_decide_eq_false. congruence.
  - apply filter_all. intros p Hp.
    apply Hcompany in Hp. unfold Limiter.in_partition.
    by apply bool_decide_eq_true.
  - intros Hnot.
    assert (Hempty : List.filter (Limiter.in_partition "company" G) t = []).
    { apply filter_none. intros r Hr. unfold Limiter.in_partition.
      apply bool_decide_eq_false. intros Heq. apply Hnot. unfold Limiter.partitions.
      apply list_elem_of_In, elem_of_remove_dups, list_elem_of_In.
      rewrite <- Heq. by apply in_map. }
    rewrite Hempty.
    rewrite (Permutation_nil (Permutation_sym (Limiter.arrange_perm engine []))).
    reflexivity.
Qed.

(** *** The query *)

(** On a table with the two columns and no column [rn] the query is
    accepted, and [rn] is the row number. *)
Lemma limited_query_accepted (engine : Limiter.Engine) (limit : Z) (t : Limiter.Table) :
  Limiter.has_column "company" (Limiter.columns t) = true ->
  Limiter.has_column "linkedin" (Limiter.columns t) = true ->
  Limiter.has_column "rn" (Limiter.columns t) = false ->
  Limiter.limited_query engine limit t
  = Some (Limiter.emit engine
            (map Limiter.with_rn
               (List.filter (fun p => snd p <=? limit)
                  (Limiter.row_number_over engine "company" "linkedin" (Limiter.named t))))).
Proof.
  intros Hc Hl Hrn. unfold Limiter.limited_query.
  rewrite Hc, Hl, (rn_is_text_absent t Hrn). cbn [andb negb].
  do 2 f_equal. rewrite filter_map_comm. f_equal.
  apply filter_same_in. intros p Hp. apply rows_cover_in in Hp.
  unfold Limiter.rn_within, Limiter.with_rn.
  by rewrite (column_app_lacks "rn" (fst p) _ (rn_absent t (fst p) Hrn Hp)).
Qed.

(** On a table whose own column [rn] holds an integer in every row the
    query is accepted, and [rn] is that column. *)
Lemma limited_query_own_rn (engine : Limiter.Engine) (limit : Z) (t : Limiter.Table) :
  Limiter.has_column "company" (Limiter.columns t) = true ->
  Limiter.has_column "linkedin" (Limiter.columns t) = true ->
  (forall r, In r (Limiter.named t) -> exists x, Limiter.column "rn" r = Limiter.SqlInt x) ->
  Limiter.limited_query engine limit t
  = Some (Limiter.emit engine
            (map Limiter.with_rn
               (List.filter (fun p => Limiter.rn_within limit (fst p))
                  (Limiter.row_number_over engine "company" "linkedin" (Limiter.named t))))).
Proof.
  intros Hc Hl Hown. unfold Limiter.limited_query. rewrite Hc, Hl.
  assert (Htext : Limiter.rn_is_text (Limiter.named t) = false).
  { unfold Limiter.rn_is_text. destruct (existsb _ (Limiter.named t)) eqn:E; [|done].
    apply existsb_exists in E as (r & Hr & Htext).
    destruct (Hown r Hr) as [x Hx]. by rewrite Hx in Htext. }
  rewrite Htext. cbn [andb negb]. do 2 f_equal. rewrite filter_map_comm. f_equal.
  apply filter_same_in. intros p Hp. apply rows_cover_in in Hp.
  destruct (Hown (fst p) Hp) as [x Hx].
  unfold Limiter.rn_within, Limiter.with_rn.
  by rewrite (column_app_found "rn" (fst p) _ x Hx), Hx.
Qed.

Lemma limited_query_some (engine : Limiter.Engine) (limit : Z) (t : Limiter.Table)
    (rows : list Limiter.SqlRow) :
  Limiter.limited_query engine limit t = Some rows ->
  Limiter.has_column "company" (Limiter.columns t) = true /\
  Limiter.has_column "linkedin" (Limiter.columns t) = true.
Proof.
  unfold Limiter.limited_query.
  destruct (Limiter.has_column "company" _), (Limiter.has_column "linkedin" _); by simpl.
Qed.

(** A limit that is zero or negative keeps no row. *)
Lemma limited_query_nothing (engine : Limiter.Engine) (limit : Z) (t : Limiter.Table) :
  limit <= 0 ->
  Limiter.has_column "company" (Limiter.columns t) = true ->
  Limiter.has_column "linkedin" (Limiter.columns t) = true ->
  Limiter.has_column "rn" (Limiter.columns t) = false ->
  Limiter.limited_query engine limit t = Some [].
Proof.
  intros Hlimit Hc Hl Hrn. rewrite limited_query_accepted by done. f_equal.
  apply Permutation_nil. symmetry. rewrite Limiter.emit_perm.
  rewrite filter_none; [done|]. intros [r n] Hp.
  apply numbered_row in Hp as [_ Hn]. simpl. apply Z.leb_gt. lia.
Qed.

(** C2 on the code: the query's [WHERE rn] reads the first column named
    [rn], and in a file that has a column [rn] of its own that is the
    file's column, not the row number. For a file of one row of company A
    whose [rn] is 7, the limit 1 keeps no row although A has a single row;
    for a file of three rows of company A whose [rn] is 0, the limit 1
    keeps all three. Both hold whatever order the engine works in. *)
Theorem uploaded_rn_column_hides_row_number :
  forall engine : Limiter.Engine,
    Limiter.named own_rn_high
    = [[("company", Limiter.SqlStr "A"); ("linkedin", Limiter.SqlStr "in/a");
        ("rn", Limiter.SqlInt 7)]] /\
    Limiter.limited_query engine 1 own_rn_high = Some [] /\
    length (Limiter.named own_rn_low) = 3%nat /\
    exists out : list Limiter.SqlRow,
      Limiter.limited_query engine 1 own_rn_low = Some out /\
      length out = 3%nat /\
      Forall (fun r => Limiter.column "company" r = Limiter.SqlStr "A") out.
Proof.
  intros engine. split; [reflexivity|].
  assert (Hhigh : forall r, In r (Limiter.named own_rn_high) ->
                            Limiter.column "rn" r = Limiter.SqlInt 7).
  { intros r [<-|[]]. reflexivity. }
  assert (Hlow : forall r, In r (Limiter.named own_rn_low) ->
                           Limiter.column "rn" r = Limiter.SqlInt 0 /\
                           Limiter.column "company" r = Limiter.SqlStr "A").
  { intros r [<-|[<-|[<-|[]]]]; by split. }
  split; [|split; [reflexivity|]].
  - rewrite limited_query_own_rn; [|reflexivity|reflexivity|].
    + f_equal. apply Permutation_nil. symmetry. rewrite Limiter.emit_perm.
      rewrite filter_none; [done|]. intros p Hp. apply rows_cover_in in Hp.
      unfold Limiter.rn_within. by rewrite (Hhigh _ Hp).
    + intros r Hr. exists 7. by apply Hhigh.
  - eexists. split.
    + apply limited_query_own_rn; [reflexivity|reflexivity|].
      intros r Hr. exists 0. by apply Hlow.
    + rewrite filter_all.
      * split.
        -- rewrite (Permutation_length (Limiter.emit_perm engine _)), length_map.
           rewrite <- (length_map fst).
           by rewrite (Permutation_length (rows_cover engine (Limiter.named own_rn_low))).
        -- apply List.Forall_forall. intros r Hr.
           eapply Permutation_in in Hr; [|apply Limiter.emit_perm].
           apply in_map_iff in Hr as (p & <- & Hp). apply rows_cover_in in Hp.
           unfold Limiter.with_rn. rewrite column_app_other by reflexivity.
           by apply Hlow.
      * intros p Hp. apply rows_cover_in in Hp.
        unfold Limiter.rn_within. by rewrite (proj1 (Hlow _ Hp)).
Qed.

(** ** Validation of the upload request *)

Lemma on_finish_never_400 (svc : Storage) (shouldCleanup : bool) (filePath outPath : string)
    (now : Z) (fileBuffer : string) (w : World) :
  response (Publish.on_finish svc shouldCleanup filePath outPath now fileBuffer w)
    <> Some (Send 400 "Invalid input.").
Proof.
  unfold Publish.on_finish.
  destruct (upload_error svc _); [simpl; discriminate|].
  destruct (storage_list svc 100 _); simpl; discriminate.
Qed.


Lemma process_never_400 (nts : JSNumber -> string)
    (axios_post : nat -> JSValue -> Enrich.Outcome) (engine : Limiter.Engine) (svc : Storage)
    (shouldCleanup : bool) (tmpdir : string) (now_out now_finish : Z) (limit : JSNumber)
    (f : Upload.UploadedFile) (w : World) :
  response
    (Upload.process nts axios_post engine svc shouldCleanup tmpdir now_out now_finish limit f w)
  <> Some (Send 400 "Invalid input.").
Proof.
  unfold Upload.process, Upload.exportCSVAndUpload.
  destruct (Upload.uploaded f); [|discriminate].
  destruct (Upload.limit_literal limit); [|discriminate].
  destruct (Limiter.limited_query engine _ _); [|discriminate].
  apply on_finish_never_400.
Qed.

(** C5 on the code: the limit [-5] parses to the truthy number -5, so the
    guard [!limit] lets it through: the answer is never the 400 rejection,
    whatever the query engine and the services do, and with a working
    storage the request runs to the end, publishes an (empty) artifact and
    redirects to it. *)
Theorem negative_limit_is_processed :
  Upload.parseInt "-5" = Dec (-5) 0 /\
  (forall (nts : JSNumber -> string) (axios_post : nat -> JSValue -> Enrich.Outcome)
          (engine : Limiter.Engine)
          (svc : Storage) (shouldCleanup : bool) (tmpdir : string) (now_out now_finish : Z)
          (f : Upload.UploadedFile) (w : World),
      response
        (Upload.upload_route nts axios_post engine svc shouldCleanup tmpdir now_out now_finish
           {| Upload.body_limit := Some "-5"; Upload.file := Some f |} w)
      <> Some (Send 400 "Invalid input.")) /\
  (forall engine : Limiter.Engine,
      response
        (Upload.upload_route integer_text flaky_service engine plain_storage false "/tmp"
           1700000000000 1700000000400
           {| Upload.body_limit := Some "-5"; Upload.file := Some five_leads |} empty_world)
      = Some (Redirect "https://storage.example/hatch-exports/hatch_result_1700000000400.csv") /\
      buckets
        (Upload.upload_route integer_text flaky_service engine plain_storage false "/tmp"
           1700000000000 1700000000400
           {| Upload.body_limit := Some "-5"; Upload.file := Some five_leads |} empty_world)
        "hatch-exports"
      = [{| name := "hatch_result_1700000000400.csv"; created_at := 1700000000500;
            content := "" |}]).
Proof.
  split; [reflexivity|]. split.
  - intros. unfold Upload.upload_route.
    cbn [Upload.file Upload.body_limit default id].
    change (Upload.parseInt "-5") with (Dec (-5) 0).
    change (truthy (JNum (Dec (-5) 0))) with true. cbn [negb].
    apply process_never_400.
  - intros engine.
    assert (Hq : Limiter.limited_query engine (-5) five_rows = Some []).
    { apply limited_query_nothing; [lia|reflexivity..]. }
    unfold Upload.upload_route.
    cbn [Upload.file Upload.body_limit default id].
    change (Upload.parseInt "-5") with (Dec (-5) 0).
    change (truthy (JNum (Dec (-5) 0))) with true. cbn [negb].
    unfold Upload.process.
    change (Upload.uploaded five_leads) with (Some five_rows).
    change (Upload.limit_literal (Dec (-5) 0)) with (Some (-5)).
    cbn match. rewrite Hq. split; vm_compute; reflexivity.
Qed.

(** ** Retention in the bucket of the enriched files *)

Lemma newest_first_total (a b : FileObject) :
  Publish.newest_first a b <= 0 \/ Publish.newest_first b a <= 0.
Proof. unfold Publish.newest_first. lia. Qed.

Lemma newest_first_trans (a b c : FileObject) :
  Publish.newest_first a b <= 0 -> Publish.newest_first b c <= 0 ->
  Publish.newest_first a c <= 0.
Proof. unfold Publish.newest_first. lia. Qed.

Lemma remove_each_spec (svc : Storage) (doomed : list FileObject) :
  forall b : Bucket, Publish.remove_each svc doomed b = List.filter (survives svc doomed) b.
Proof.
  induction doomed as [|f rest IH]; intros b; simpl.
  - symmetry. by apply filter_all.
  - rewrite IH. unfold storage_remove.
    destruct (remove_error svc (name f)) as [e|] eqn:E; simpl.
    + apply List.filter_ext. intros o. unfold survives. simpl.
      rewrite E. by rewrite andb_false_r.
    + unfold without_name. rewrite filter_filter.
      apply List.filter_ext. intros o. unfold survives. simpl.
      rewrite E, andb_true_r, negb_orb. by rewrite (String.eqb_sym (name f)).
Qed.

Lemma buckets_set_bucket (b : string) (objs : Bucket) (w : World) :
  buckets (set_bucket b objs w) b = objs.
Proof. simpl. by rewrite String.eqb_refl. Qed.

Lemma on_finish_published (svc : Storage) (shouldCleanup : bool) (filePath outPath : string)
    (now : Z) (fileBuffer : string) (w : World) :
  upload_error svc (hatch_result now) = None ->
  list_fails svc = false ->
  response (Publish.on_finish svc shouldCleanup filePath outPath now fileBuffer w)
    = Some (Redirect (public_url svc (hatch_result now))) /\
  buckets (Publish.on_finish svc shouldCleanup filePath outPath now fileBuffer w)
    Publish.hatch_bucket
    = Publish.remove_each svc
        (Publish.beyond_three
           (take 100
              (sort by_name
                 (put {| name := hatch_result now; created_at := created_now svc;
                         content := fileBuffer |}
                    (buckets w Publish.hatch_bucket)))))
        (put {| name := hatch_result now; created_at := created_now svc;
                content := fileBuffer |}
           (buckets w Publish.hatch_bucket)).
Proof.
  intros Hup Hlist. unfold Publish.on_finish, storage_list.
  fold (hatch_result now). rewrite Hup, Hlist.
  destruct shouldCleanup; split; try reflexivity; simpl; by rewrite String.eqb_refl.
Qed.

Lemma without_name_perm (o : FileObject) (b : Bucket) :
  List.NoDup (map name b) -> In o b -> Permutation b (o :: without_name (name o) b).
Proof.
  induction b as [|x b IH]; simpl; [done|].
  intros Hnd Hin. apply NoDup_cons_iff in Hnd as [Hx Hnd].
  destruct Hin as [->|Hin].
  - rewrite String.eqb_refl. simpl. constructor.
    unfold without_name in *. rewrite filter_all; [done|].
    intros y Hy. apply negb_true_iff, String.eqb_neq. intros Heq.
    apply Hx. rewrite <- Heq. by apply in_map.
  - assert (Hne : String.eqb (name x) (name o) = false).
    { apply String.eqb_neq. intros Heq. apply Hx. rewrite Heq. by apply in_map. }
    rewrite Hne. simpl. rewrite perm_swap. constructor. by apply IH.
Qed.

Lemma put_fresh (o : FileObject) (b : Bucket) :
  has_name (name o) b = false -> put o b = b ++ [o].
Proof.
  intros Hfresh. unfold put, without_name. rewrite filter_all; [done|].
  intros x Hx. apply negb_true_iff.
  destruct (String.eqb (name x) (name o)) eqn:E; [|done].
  unfold has_name in Hfresh.
  assert (existsb (fun o0 => String.eqb (name o0) (name o)) b = true); [|congruence].
  apply existsb_exists. eauto.
Qed.

(** C6: after a successful upload, with a listing that returns data, the
    handler redirects whatever the removals return (their errors are
    dropped); of the at most 100 listed objects, in descending order of
    creation time, the removal is asked for exactly those beyond the first
    three, none of which is more recent than any of the three, and the
    bucket loses those whose removal succeeds. Publishing into a bucket that
    holds three objects, when removals succeed, removes exactly one object,
    the oldest, and leaves three. *)
Theorem retention_keeps_three_newest :
  forall (svc : Storage) (shouldCleanup : bool) (filePath outPath : string) (now : Z)
         (fileBuffer : string) (w : World),
    upload_error svc (hatch_result now) = None ->
    list_fails svc = false ->
    response (Publish.on_finish svc shouldCleanup filePath outPath now fileBuffer w)
      = Some (Redirect (public_url svc (hatch_result now))) /\
    buckets (Publish.on_finish svc shouldCleanup filePath outPath now fileBuffer w)
      Publish.hatch_bucket
      = List.filter (survives svc (drop 3 (listed_by_date svc now fileBuffer w)))
          (stored_after_upload svc now fileBuffer w) /\
    (length (take 100 (sort by_name (stored_after_upload svc now fileBuffer w))) <= 100)%nat /\
    Permutation (take 100 (sort by_name (stored_after_upload svc now fileBuffer w)))
      (take 3 (listed_by_date svc now fileBuffer w)
       ++ drop 3 (listed_by_date svc now fileBuffer w)) /\
    (forall a b,
        In a (take 3 (listed_by_date svc now fileBuffer w)) ->
        In b (drop 3 (listed_by_date svc now fileBuffer w)) ->
        created_at b <= created_at a) /\
    (length (buckets w Publish.hatch_bucket) = 3%nat ->
     has_name (hatch_result now) (buckets w Publish.hatch_bucket) = false ->
     List.NoDup (map name (buckets w Publish.hatch_bucket)) ->
     (forall n, remove_error svc n = None) ->
     exists oldest : FileObject,
       Permutation (stored_after_upload svc now fileBuffer w)
         (oldest
          :: buckets (Publish.on_finish svc shouldCleanup filePath outPath now fileBuffer w)
               Publish.hatch_bucket) /\
       length (buckets (Publish.on_finish svc shouldCleanup filePath outPath now fileBuffer w)
                 Publish.hatch_bucket) = 3%nat /\
       forall o,
         In o (buckets (Publish.on_finish svc shouldCleanup filePath outPath now fileBuffer w)
                 Publish.hatch_bucket) ->
         created_at oldest <= created_at o).
Proof.
  intros svc shouldCleanup filePath outPath now fileBuffer w Hup Hlist.
  destruct (on_finish_published svc shouldCleanup filePath outPath now fileBuffer w Hup Hlist)
    as [Hresp Hbucket].
  rewrite Hresp, Hbucket. unfold Publish.beyond_three.
  fold (stored_after_upload svc now fileBuffer w).
  fold (listed_by_date svc now fileBuffer w).
  set (stored := stored_after_upload svc now fileBuffer w).
  set (sorted := listed_by_date svc now fileBuffer w).
  assert (Hbefore : forall a b, In a (take 3 sorted) -> In b (drop 3 sorted) ->
                                created_at b <= created_at a).
  { intros a b Ha Hb.
    pose proof (sort_take_drop Publish.newest_first newest_first_total newest_first_trans
                  3 _ a b Ha Hb) as H.
    unfold before, Publish.newest_first in H. lia. }
  split; [done|]. split; [apply remove_each_spec|].
  split; [rewrite length_take; lia|].
  split; [rewrite take_drop; symmetry; apply sort_perm|].
  split; [exact Hbefore|].
  intros Hthree Hfresh Hnames Hremove.
  assert (Hstored : stored = buckets w Publish.hatch_bucket
                      ++ [{| name := hatch_result now; created_at := created_now svc;
                             content := fileBuffer |}]).
  { unfold stored, stored_after_upload. by apply put_fresh. }
  assert (Hlen4 : length stored = 4%nat).
  { rewrite Hstored, length_app. simpl. lia. }
  assert (Hperm : Permutation sorted stored).
  { unfold sorted, listed_by_date. rewrite sort_perm. fold stored.
    rewrite take_ge; [apply sort_perm|].
    rewrite (Permutation_length (sort_perm by_name stored)). lia. }
  assert (Hsplit : exists oldest, drop 3 sorted = [oldest]).
  { pose proof (Permutation_length Hperm) as Hl. rewrite Hlen4 in Hl.
    destruct sorted as [|a [|b [|c [|d [|e rest]]]]]; try discriminate Hl.
    simpl. eauto. }
  destruct Hsplit as [oldest Hdrop]. rewrite Hdrop. simpl.
  unfold storage_remove. rewrite Hremove. simpl.
  assert (Hin : In oldest stored).
  { eapply Permutation_in; [exact Hperm|].
    rewrite <- (take_drop 3 sorted), Hdrop. apply in_or_app. right. by left. }
  assert (Hnd : List.NoDup (map name stored)).
  { rewrite Hstored, map_app. simpl.
    apply NoDup_ListNoDup, NoDup_app. split; [by apply NoDup_ListNoDup|].
    split; [|apply NoDup_singleton].
    intros n Hn Hn'. apply list_elem_of_singleton in Hn'. subst n.
    apply list_elem_of_In, in_map_iff in Hn as (o & Ho & Hino).
    unfold has_name in Hfresh.
    assert (existsb (fun o0 => String.eqb (name o0) (hatch_result now))
              (buckets w Publish.hatch_bucket) = true); [|congruence].
    apply existsb_exists. exists o. split; [done|]. by apply String.eqb_eq. }
  pose proof (without_name_perm oldest stored Hnd Hin) as Hwp.
  exists oldest. split; [exact Hwp|].
  assert (Hkept : Permutation (without_name (name oldest) stored) (take 3 sorted)).
  { apply (Permutation_cons_inv (a := oldest)).
    rewrite <- Hwp, <- Hperm. rewrite <- (take_drop 3 sorted) at 1.
    rewrite Hdrop. rewrite Permutation_app_comm. reflexivity. }
  split.
  - apply Permutation_length in Hwp. simpl in Hwp. lia.
  - intros o Ho. apply Hbefore.
    + eapply Permutation_in; [exact Hkept|exact Ho].
    + rewrite Hdrop. by left.
Qed.

Lemma retention_keeps_three_newest_witness :
  (upload_error plain_storage (hatch_result 1700000000400) = None /\
   list_fails plain_storage = false /\
   length (buckets three_files Publish.hatch_bucket) = 3%nat /\
   has_name (hatch_result 1700000000400) (buckets three_files Publish.hatch_bucket) = false /\
   List.NoDup (map name (buckets three_files Publish.hatch_bucket)) /\
   (forall n, remove_error plain_storage n = None)) /\
  exists oldest : FileObject,
    Permutation (stored_after_upload plain_storage 1700000000400 "x" three_files)
      (oldest
       :: buckets (Publish.on_finish plain_storage false "in" "out" 1700000000400 "x" three_files)
            Publish.hatch_bucket) /\
    length (buckets (Publish.on_finish plain_storage false "in" "out" 1700000000400 "x" three_files)
              Publish.hatch_bucket) = 3%nat /\
    forall o,
      In o (buckets (Publish.on_finish plain_storage false "in" "out" 1700000000400 "x" three_files)
              Publish.hatch_bucket) ->
      created_at oldest <= created_at o.
Proof.
  assert (Hnd : List.NoDup (map name (buckets three_files Publish.hatch_bucket))).
  { vm_compute. repeat (constructor; [simpl; intuition discriminate|]). constructor. }
  split.
  - repeat split; try reflexivity. exact Hnd.
  - apply (retention_keeps_three_newest plain_storage false "in" "out" 1700000000400 "x"
             three_files eq_refl eq_refl); try reflexivity. exact Hnd.
Defined.

(** ** The bulk exports *)

Lemma range_of_page (rows : list Obj) (p : nat) :
  BulkExport.range_of rows (p * BulkExport.pageSize)
    (p * BulkExport.pageSize + BulkExport.pageSize - 1)
  = BulkExport.FetchData (Some (page_rows rows p)).
Proof.
  unfold BulkExport.range_of, page_rows. do 3 f_equal.
  unfold BulkExport.pageSize. lia.
Qed.

Lemma loop_body_range (nts : JSNumber -> string) (prefix : string) (rows : list Obj)
    (st : BulkExport.LoopState) :
  BulkExport.loop_body nts (BulkExport.range_of rows) prefix st
  = match page_rows rows (BulkExport.page st) with
    | [] => BulkExport.Break st
    | first :: _ =>
        if (length (page_rows rows (BulkExport.page st)) <? BulkExport.pageSize)%nat
        then BulkExport.Break
               {| BulkExport.page := BulkExport.page st;
                  BulkExport.csvParts :=
                    (if BulkExport.headersWritten st then BulkExport.csvParts st
                     else BulkExport.csvParts st ++ [BulkExport.header_row first])
                    ++ map (BulkExport.row_str nts) (page_rows rows (BulkExport.page st));
                  BulkExport.headersWritten := true |}
        else BulkExport.Continue
               {| BulkExport.page := S (BulkExport.page st);
                  BulkExport.csvParts :=
                    (if BulkExport.headersWritten st then BulkExport.csvParts st
                     else BulkExport.csvParts st ++ [BulkExport.header_row first])
                    ++ map (BulkExport.row_str nts) (page_rows rows (BulkExport.page st));
                  BulkExport.headersWritten := true |}
    end.
Proof.
  unfold BulkExport.loop_body. rewrite range_of_page.
  by destruct (page_rows rows (BulkExport.page st)).
Qed.

Lemma page_rows_length (rows : list Obj) (p : nat) :
  length (page_rows rows p)
  = Nat.min BulkExport.pageSize (length (drop (p * BulkExport.pageSize) rows)).
Proof. unfold page_rows. apply length_take. Qed.

Lemma loop_range (nts : JSNumber -> string) (prefix : string) (rows : list Obj) :
  forall (fuel p : nat) (parts : list string) (hw : bool),
    (length (drop (p * BulkExport.pageSize) rows) < fuel * BulkExport.pageSize)%nat ->
    exists st,
      BulkExport.loop nts (BulkExport.range_of rows) prefix fuel
        {| BulkExport.page := p; BulkExport.csvParts := parts;
           BulkExport.headersWritten := hw |}
        = Some (Normal st) /\
      BulkExport.page st
        = (p + length (drop (p * BulkExport.pageSize) rows) / BulkExport.pageSize)%nat /\
      BulkExport.csvParts st
        = parts ++ pending_header hw (drop (p * BulkExport.pageSize) rows)
          ++ map (BulkExport.row_str nts) (drop (p * BulkExport.pageSize) rows).
Proof.
  induction fuel as [|fuel IH]; intros p parts hw Hfuel; [lia|].
  cbn [BulkExport.loop]. rewrite loop_body_range. cbn [BulkExport.page].
  pose proof (page_rows_length rows p) as Hlen.
  set (remaining := drop (p * BulkExport.pageSize) rows) in *.
  assert (Hpage : page_rows rows p = take BulkExport.pageSize remaining) by done.
  destruct (page_rows rows p) as [|first data] eqn:Hdata.
  - assert (Hnil : remaining = []).
    { destruct remaining; [done|]. discriminate Hpage. }
    rewrite Hnil. eexists. split; [reflexivity|]. cbn [BulkExport.page BulkExport.csvParts].
    split.
    + cbn [length]. rewrite Nat.Div0.div_0_l. lia.
    + unfold pending_header. destruct hw; simpl; by rewrite app_nil_r.
  - assert (Hfirst : exists tail, remaining = first :: tail).
    { destruct remaining as [|r tail]; [discriminate Hpage|].
      injection Hpage as -> _. eauto. }
    destruct Hfirst as [tail Hrem].
    assert (Hhdr : (if hw then parts else parts ++ [BulkExport.header_row first])
                   = parts ++ pending_header hw remaining).
    { unfold pending_header. rewrite Hrem. destruct hw; [by rewrite app_nil_r|done]. }
    cbn [BulkExport.headersWritten BulkExport.csvParts]. rewrite Hhdr.
    destruct (Nat.ltb_spec (length (first :: data)) BulkExport.pageSize) as [Hshort|Hfull].
    + eexists. split; [reflexivity|]. cbn [BulkExport.page BulkExport.csvParts].
      assert (Hall : first :: data = remaining).
      { rewrite Hpage. apply take_ge. lia. }
      split.
      * rewrite Nat.div_small; [lia|]. rewrite <- Hall. exact Hshort.
      * by rewrite Hall, <- app_assoc.
    + assert (Hnext : drop (S p * BulkExport.pageSize) rows
                      = drop BulkExport.pageSize remaining).
      { unfold remaining. rewrite drop_drop. f_equal. lia. }
      assert (Hge : (BulkExport.pageSize <= length remaining)%nat) by lia.
      destruct (IH (S p)
                  ((parts ++ pending_header hw remaining)
                   ++ map (BulkExport.row_str nts) (first :: data)) true)
        as (st & Hloop & Hp & Hparts).
      { rewrite Hnext, length_drop.
        unfold BulkExport.pageSize in *. lia. }
      exists st. split; [exact Hloop|]. split.
      * rewrite Hp, Hnext, length_drop.
        replace (length remaining)
          with (1 * BulkExport.pageSize + (length remaining - BulkExport.pageSize))%nat
          at 2 by lia.
        rewrite Nat.div_add_l by done. lia.
      * rewrite Hparts, Hnext. cbn [pending_header app].
        rewrite Hpage, <- !app_assoc. do 2 f_equal.
        rewrite <- map_app. by rewrite take_drop.
Qed.

Lemma loop_more_fuel (nts : JSNumber -> string) (select_range : nat -> nat -> BulkExport.FetchResult)
    (prefix : string) (extra : nat) :
  forall (fuel : nat) (st : BulkExport.LoopState) (r : Completion BulkExport.LoopState),
    BulkExport.loop nts select_range prefix fuel st = Some r ->
    BulkExport.loop nts select_range prefix (fuel + extra) st = Some r.
Proof.
  induction fuel as [|fuel IH]; intros st r; [discriminate|].
  cbn [BulkExport.loop Nat.add].
  destruct (BulkExport.loop_body nts select_range prefix st); auto.
Qed.

Lemma doubled_spec (s : string) :
  replace_class Csv.is_quote (quote_s +:+ quote_s) s = doubled s.
Proof.
  induction s as [|c s IH]; [done|]. cbn [replace_class doubled].
  unfold Csv.is_quote at 1, quote. destruct (Ascii.eqb c "034"%char) eqn:E.
  - apply Ascii.eqb_eq in E. subst c. by rewrite IH.
  - by rewrite IH.
Qed.

Lemma row_str_spec (nts : JSNumber -> string) (row : Obj) :
  BulkExport.row_str nts row
  = String.concat ","
      (map (fun val =>
              String "034"%char (doubled (field_text nts val) +:+ String "034"%char ""))
         (map snd row))
    +:+ String "010"%char "".
Proof.
  unfold BulkExport.row_str. rewrite join_concat. f_equal. f_equal.
  apply map_ext. intros val. unfold BulkExport.cell. rewrite doubled_spec.
  by destruct val.
Qed.

(** C9: the loop starts at page 0 with pages of 1000 rows; on a table with
    finitely many rows for the tenant, a turn goes on to the next page
    exactly when the page read has 1000 rows and stops when it has fewer
    (a short or an empty page), and never throws; the loop ends after
    [length rows / 1000 + 1] turns, and what it has written is the header
    line, once: the keys of the first row joined by commas, with a line
    feed; it is followed by one line per row, the row's values between
    quote characters (null and undefined as the empty text, quote
    characters doubled) joined by commas, with a line feed (and nothing at
    all is written when there is no row). *)
Theorem export_pagination_terminates :
  forall (nts : JSNumber -> string) (prefix : string) (rows : list Obj),
    BulkExport.page BulkExport.initial = 0%nat /\
    BulkExport.pageSize = 1000%nat /\
    (forall p : nat,
        BulkExport.range_of rows (p * 1000) (p * 1000 + 1000 - 1)
        = BulkExport.FetchData (Some (page_rows rows p))) /\
    (forall st : BulkExport.LoopState,
        match BulkExport.loop_body nts (BulkExport.range_of rows) prefix st with
        | BulkExport.Continue st' =>
            length (page_rows rows (BulkExport.page st)) = 1000%nat /\
            BulkExport.page st' = S (BulkExport.page st)
        | BulkExport.Break st' =>
            (length (page_rows rows (BulkExport.page st)) < 1000)%nat /\
            BulkExport.page st' = BulkExport.page st
        | BulkExport.Raise _ => False
        end) /\
    exists st : BulkExport.LoopState,
      (forall extra : nat,
          BulkExport.loop nts (BulkExport.range_of rows) prefix
            (S (length rows / 1000) + extra) BulkExport.initial
          = Some (Normal st)) /\
      BulkExport.page st = (length rows / 1000)%nat /\
      BulkExport.csvParts st
        = match rows with
          | [] => []
          | first :: _ =>
              (String.concat "," (map fst first) +:+ String "010"%char "")
              :: map (fun row =>
                        String.concat ","
                          (map (fun val =>
                                  String "034"%char
                                    (doubled (field_text nts val) +:+ String "034"%char ""))
                             (map snd row))
                        +:+ String "010"%char "")
                   rows
          end.
Proof.
  intros nts prefix rows.
  split; [reflexivity|]. split; [reflexivity|].
  split; [intros p; apply (range_of_page rows p)|]. split.
  - intros st. rewrite loop_body_range.
    pose proof (page_rows_length rows (BulkExport.page st)) as Hlen.
    destruct (page_rows rows (BulkExport.page st)) as [|first data] eqn:Hdata.
    + split; [cbn [length]; lia|done].
    + destruct (Nat.ltb_spec (length (first :: data)) BulkExport.pageSize) as [Hshort|Hfull].
      * split; [exact Hshort|done].
      * split; [|done]. unfold BulkExport.pageSize in *. lia.
  - destruct (loop_range nts prefix rows (S (length rows / 1000)) 0 [] false)
      as (st & Hloop & Hpage & Hparts).
    { rewrite drop_0. unfold BulkExport.pageSize.
      pose proof (Nat.mul_succ_div_gt (length rows) 1000). lia. }
    exists st. split; [intros extra; by apply loop_more_fuel|].
    rewrite drop_0 in Hpage, Hparts. split; [exact Hpage|].
    rewrite Hparts. destruct rows as [|first rows]; [done|].
    change ([] ++ pending_header false (first :: rows)
              ++ map (BulkExport.row_str nts) (first :: rows))
      with (BulkExport.header_row first :: map (BulkExport.row_str nts) (first :: rows)).
    f_equal. apply map_ext. intros row. apply row_str_spec.
Qed.

(** C8: for a tenant with no row, [exportLeads] returns nothing after
    logging a warning and leaves the storage as it was, while
    [exportPocLevels] throws; the [GET /export-leads] handler then answers
    (with the 500 of its [catch], as destructuring the missing result
    throws) without any redirect, any artifact or any timer. *)
Theorem empty_exports_differ :
  forall (nts : JSNumber -> string) (svc : Storage) (extra : nat) (c : ascii) (s : string)
         (timestamp : Z) (w : World),
    BulkExport.exportLeads nts svc (S extra) (BulkExport.range_of []) (String c s) timestamp w
      = Some (Normal None, print (Warn ("No data found for client_id: " +:+ String c s)) w) /\
    BulkExport.exportPocLevels nts svc (S extra) (BulkExport.range_of []) (String c s) timestamp w
      = Some (Throw ("No data found for client_id: " +:+ String c s), w) /\
    exists w' : World,
      BulkExport.get_export_leads nts svc (S extra) (BulkExport.range_of [])
        (Some (String c s)) timestamp w = Some w' /\
      buckets w' = buckets w /\
      timers w' = timers w /\
      response w' = Some (SendJson 500 "Export failed") /\
      (forall url, response w' <> Some (Redirect url)) /\
      In (Warn ("No data found for client_id: " +:+ String c s)) (console w').
Proof.
  intros nts svc extra c s timestamp w.
  assert (Hloop : forall prefix,
             BulkExport.loop nts (BulkExport.range_of []) prefix (S extra) BulkExport.initial
             = Some (Normal BulkExport.initial)).
  { intros prefix. cbn [BulkExport.loop]. rewrite loop_body_range.
    unfold page_rows. by rewrite drop_nil, take_nil. }
  assert (Hleads :
    BulkExport.exportLeads nts svc (S extra) (BulkExport.range_of []) (String c s) timestamp w
    = Some (Normal None, print (Warn ("No data found for client_id: " +:+ String c s)) w)).
  { unfold BulkExport.exportLeads. by rewrite Hloop. }
  split; [exact Hleads|]. split.
  { unfold BulkExport.exportPocLevels. by rewrite Hloop. }
  unfold BulkExport.get_export_leads, BulkExport.export_route.
  rewrite Hleads. cbn [String.eqb].
  eexists. split; [reflexivity|].
  split; [reflexivity|]. split; [reflexivity|]. split; [reflexivity|].
  split; [intros url; discriminate|].
  cbn [console respond print]. apply in_or_app. left. apply in_or_app. right. by left.
Qed.

(** * Further properties of the code *)

(** ** Phone cleaning, again *)

Lemma clean_fixed (s : string) :
  string_forall digit_or_plus s = true ->
  replace_class Phone.not_digit_or_plus "" s = s.
Proof.
  unfold string_forall. induction s as [|c s IH]; simpl; [done|].
  intros H. apply andb_true_iff in H as [Hc Hs].
  unfold Phone.not_digit_or_plus at 1. unfold digit_or_plus in Hc.
  rewrite Hc. simpl. by rewrite IH.
Qed.

(** Cleaning twice: a value that is a string after unwrapping is cleaned
    to the same result by a second pass, and any other value, which the
    first pass turns into the word [Error], ends as the empty string. *)
Theorem cleanPhoneNumber_twice :
  forall v : JSValue,
    Phone.cleanPhoneNumber (Phone.cleanPhoneNumber v)
    = if is_string (Phone.unwrapped v) then Phone.cleanPhoneNumber v else JStr "".
Proof.
  intros v. rewrite (cleanPhoneNumber_unwrapped v).
  destruct (Phone.unwrapped v); try reflexivity.
  cbn [is_string]. unfold Phone.cleanPhoneNumber at 1.
  by rewrite clean_fixed by apply cleaned_digits_and_plus.
Qed.

(** The strings the cleaning leaves unchanged are exactly those made of
    digits and plus signs only. *)
Theorem cleanPhoneNumber_fixed_points :
  forall s : string,
    Phone.cleanPhoneNumber (JStr s) = JStr s <-> string_forall digit_or_plus s = true.
Proof.
  intros s. split.
  - intros H. injection H as H. rewrite <- H at 1. apply cleaned_digits_and_plus.
  - intros H. unfold Phone.cleanPhoneNumber. by rewrite clean_fixed.
Qed.

(** ** The limit field *)

Lemma digit_value_pretty_char (d : N) :
  (d < 10)%N -> Upload.digit_value 10 (pretty_N_char d) = Some (Z.of_N d).
Proof.
  intros Hd.
  assert (d = 0 \/ d = 1 \/ d = 2 \/ d = 3 \/ d = 4 \/ d = 5 \/ d = 6 \/ d = 7
          \/ d = 8 \/ d = 9)%N as H by lia.
  repeat (destruct H as [->|H]; [reflexivity|]). by subst d.
Qed.

Lemma is_digit_pretty_char (d : N) : is_digit (pretty_N_char d) = true.
Proof. unfold pretty_N_char. by repeat case_match. Qed.

Lemma parse_pretty_go (x : N) :
  forall s : string,
    (0 < x)%N ->
    Upload.parse_digits 10 None (pretty_N_go x s)
    = Upload.parse_digits 10 (Some (Z.of_N x)) s.
Proof.
  induction (N.lt_wf_0 x) as [x _ IH]. intros s Hx.
  rewrite pretty_N_go_step by done.
  assert (Hmod : (x `mod` 10 < 10)%N) by (apply N.mod_lt; lia).
  assert (Hz : Z.of_N x = Z.of_N (x `div` 10) * 10 + Z.of_N (x `mod` 10)).
  { rewrite (N.div_mod' x 10) at 1. rewrite N2Z.inj_add, N2Z.inj_mul.
    change (Z.of_N 10) with 10. ring. }
  rewrite Hz.
  destruct (decide (x `div` 10 = 0)%N) as [Hq|Hq].
  - rewrite Hq, pretty_N_go_0. cbn [Upload.parse_digits].
    by rewrite digit_value_pretty_char.
  - rewrite IH; [|apply N.div_lt; lia|lia]. cbn [Upload.parse_digits].
    by rewrite digit_value_pretty_char.
Qed.

Lemma pretty_go_digits (x : N) :
  forall s : string,
    string_forall is_digit s = true -> string_forall is_digit (pretty_N_go x s) = true.
Proof.
  induction (N.lt_wf_0 x) as [x _ IH]. intros s Hs.
  destruct (decide (x = 0)%N) as [->|Hx]; [by rewrite pretty_N_go_0|].
  rewrite pretty_N_go_step by lia. apply IH; [apply N.div_lt; lia|].
  unfold string_forall in *. simpl. by rewrite is_digit_pretty_char, Hs.
Qed.

Lemma digit_not_space (c : ascii) :
  is_digit c = true ->
  Upload.ws1 c = false /\
  (forall c2, Upload.ws2 c c2 = false) /\
  (forall c2 c3, Upload.ws3 c c2 c3 = false) /\
  Ascii.eqb c "-"%char = false /\ Ascii.eqb c "+"%char = false /\
  Ascii.eqb c "x"%char = false /\ Ascii.eqb c "X"%char = false.
Proof.
  destruct c as [[] [] [] [] [] [] [] []]; intros H; try discriminate H;
    repeat split; reflexivity.
Qed.

(** A text of digits goes through the first stages of [parseInt] unchanged. *)
Lemma digits_unsigned (t : string) :
  string_forall is_digit t = true ->
  Upload.trim_start t = t /\
  Upload.strip_sign t = (false, t) /\
  Upload.strip_hex_prefix t = (10, t).
Proof.
  unfold string_forall. destruct t as [|c1 t]; [done|]. simpl.
  intros H. apply andb_true_iff in H as [H1 Ht].
  destruct (digit_not_space c1 H1) as (Hw1 & Hw2 & Hw3 & Hm & Hp & _).
  split; [|split].
  - rewrite Hw1. destruct t as [|c2 [|c3 t]]; [done| |].
    + by rewrite Hw2.
    + by rewrite Hw2, Hw3.
  - unfold Upload.strip_sign. by rewrite Hm, Hp.
  - unfold Upload.strip_hex_prefix. destruct t as [|c2 t]; [done|].
    simpl in Ht. apply andb_true_iff in Ht as [H2 _].
    destruct (digit_not_space c2 H2) as (_ & _ & _ & _ & _ & Hx & HX).
    by rewrite Hx, HX, andb_false_r.
Qed.

Lemma trim_start_minus (t : string) :
  string_forall is_digit t = true ->
  Upload.trim_start (String "-"%char t) = String "-"%char t.
Proof. intros _. by destruct t as [|c2 [|c3 t]]. Qed.

Lemma pretty_positive_go (p : positive) : pretty p = pretty_N_go (N.pos p) "".
Proof. unfold pretty, pretty_positive, pretty, pretty_N. by rewrite decide_False. Qed.

Lemma parseInt_dec (z : Z) : Upload.parseInt (dec z) = Upload.to_number z.
Proof.
  unfold dec, pretty, pretty_Z. destruct z as [|p|p]; [reflexivity| |].
  - rewrite pretty_positive_go.
    assert (Hd : string_forall is_digit (pretty_N_go (N.pos p) "") = true)
      by by apply pretty_go_digits.
    destruct (digits_unsigned _ Hd) as (Ht & Hs & Hh).
    unfold Upload.parseInt. rewrite Ht, Hs, Hh.
    rewrite parse_pretty_go by lia. reflexivity.
  - rewrite pretty_positive_go.
    assert (Hd : string_forall is_digit (pretty_N_go (N.pos p) "") = true)
      by by apply pretty_go_digits.
    destruct (digits_unsigned _ Hd) as (Ht & Hs & Hh).
    unfold Upload.parseInt.
    change ("-" +:+ pretty_N_go (N.pos p) "")
      with (String "-"%char (pretty_N_go (N.pos p) "")).
    rewrite trim_start_minus by done.
    cbn [Upload.strip_sign Ascii.eqb Bool.eqb]. rewrite Hh.
    rewrite parse_pretty_go by lia. reflexivity.
Qed.

(** The integers up to [2 ^ 53] in absolute value are Numbers. *)
Lemma to_number_exact (z : Z) : Z.abs z <= 2 ^ 53 -> Upload.to_number z = Dec z 0.
Proof.
  intros Hz. destruct (decide (Z.abs z = 2 ^ 53)) as [Heq|Hne].
  - assert (z = 2 ^ 53 \/ z = - 2 ^ 53) as [-> | ->] by lia; reflexivity.
  - unfold Upload.to_number.
    assert (Hbits : Z.log2 (Z.abs z) + 1 <= 53).
    { destruct (decide (Z.abs z = 0)) as [H0|H0]; [rewrite H0; simpl; lia|].
      assert (Z.log2 (Z.abs z) < 53); [|lia].
      apply Z.log2_lt_pow2; lia. }
    apply Z.leb_le in Hbits. cbv zeta. by rewrite Hbits.
Qed.

Lemma limit_literal_int (z : Z) : Upload.limit_literal (Dec z 0) = Some z.
Proof. unfold Upload.limit_literal. cbn [Z.leb Z.compare]. f_equal. lia. Qed.

Lemma truthy_int (z : Z) : truthy (JNum (Dec z 0)) = negb (z =? 0).
Proof. unfold truthy, is_zero. by rewrite andb_false_l, orb_false_r. Qed.



(** The decimal text of an integer of at most [2 ^ 53] in absolute value
    parses back to that integer, so a request with a file and such a text
    as its limit is rejected only for zero; for every other such integer,
    a negative one included, the handler runs the query with that integer
    as the limit and, when the engine accepts the query, enriches and
    publishes; when the file cannot be read or the query is rejected the
    request is left without an answer. Beyond [2 ^ 53] the limit is the
    nearest Number ([2 ^ 53 + 1] reads as [2 ^ 53]), and a text of 401
    digits reads as [Infinity], which is no number of the query language:
    the request is then never answered. *)
Theorem integer_limit_round_trip :
  forall (nts : JSNumber -> string) (axios_post : nat -> JSValue -> Enrich.Outcome)
         (engine : Limiter.Engine)
         (svc : Storage) (shouldCleanup : bool) (tmpdir : string) (now_out now_finish : Z)
         (f : Upload.UploadedFile) (w : World),
    (forall z : Z,
        Z.abs z <= 2 ^ 53 ->
        Upload.parseInt (dec z) = Dec z 0 /\
        Upload.upload_route nts axios_post engine svc shouldCleanup tmpdir now_out now_finish
          {| Upload.body_limit := Some (dec z); Upload.file := Some f |} w
        = if z =? 0 then
            {| buckets := buckets w; console := console w; timers := timers w;
               response := Some (Send 400 "Invalid input.") |}
          else
            match Upload.uploaded f with
            | Some table =>
                match Limiter.limited_query engine z table with
                | Some rows =>
                    Upload.exportCSVAndUpload nts svc shouldCleanup tmpdir now_out now_finish
                      (Enrich.results (Enrich.enrich axios_post (map Limiter.row_to_js rows)))
                      (Upload.path f)
                      (fold_left (fun w l => print (Upload.error_line nts l) w)
                         (Enrich.console_error
                            (Enrich.enrich axios_post (map Limiter.row_to_js rows)))
                         w)
                | None =>
                    {| buckets := buckets w; console := console w; timers := timers w;
                       response := None |}
                end
            | None =>
                {| buckets := buckets w; console := console w; timers := timers w;
                   response := None |}
            end) /\
    Upload.parseInt "9007199254740993" = Dec 9007199254740992 0 /\
    Upload.parseInt (dec (10 ^ 400)) = Inf false /\
    Upload.upload_route nts axios_post engine svc shouldCleanup tmpdir now_out now_finish
      {| Upload.body_limit := Some (dec (10 ^ 400)); Upload.file := Some f |} w
    = {| buckets := buckets w; console := console w; timers := timers w; response := None |}.
Proof.
  intros. split; [|split; [reflexivity|split]].
  - intros z Hz. rewrite parseInt_dec, to_number_exact by done. split; [done|].
    unfold Upload.upload_route.
    change (default "undefined"
              (Upload.body_limit
                 {| Upload.body_limit := Some (dec z); Upload.file := Some f |}))
      with (dec z).
    change (Upload.file {| Upload.body_limit := Some (dec z); Upload.file := Some f |})
      with (Some f).
    rewrite parseInt_dec, to_number_exact by done. rewrite truthy_int, negb_involutive.
    destruct (z =? 0); [done|].
    unfold Upload.process. rewrite limit_literal_int.
    destruct (Upload.uploaded f) as [table|]; [|done].
    by destruct (Limiter.limited_query engine z table).
  - rewrite parseInt_dec. by vm_compute.
  - unfold Upload.upload_route.
    change (default "undefined"
              (Upload.body_limit
                 {| Upload.body_limit := Some (dec (10 ^ 400)); Upload.file := Some f |}))
      with (dec (10 ^ 400)).
    change (Upload.file
              {| Upload.body_limit := Some (dec (10 ^ 400)); Upload.file := Some f |})
      with (Some f).
    rewrite parseInt_dec.
    assert (Hinf : Upload.to_number (10 ^ 400) = Inf false) by by vm_compute.
    rewrite Hinf. cbn [truthy negb]. unfold Upload.process.
    by destruct (Upload.uploaded f).
Qed.

Lemma integer_limit_round_trip_witness :
  Z.abs (-5) <= 2 ^ 53 /\
  Upload.parseInt (dec (-5)) = Dec (-5) 0 /\
  Upload.upload_route integer_text flaky_service reversing plain_storage false "/tmp"
    1700000000000 1700000000400
    {| Upload.body_limit := Some (dec (-5)); Upload.file := Some five_leads |} empty_world
  = if -5 =? 0 then
      {| buckets := buckets empty_world; console := console empty_world;
         timers := timers empty_world; response := Some (Send 400 "Invalid input.") |}
    else
      match Upload.uploaded five_leads with
      | Some table =>
          match Limiter.limited_query reversing (-5) table with
          | Some rows =>
              Upload.exportCSVAndUpload integer_text plain_storage false "/tmp"
                1700000000000 1700000000400
                (Enrich.results (Enrich.enrich flaky_service (map Limiter.row_to_js rows)))
                (Upload.path five_leads)
                (fold_left (fun w l => print (Upload.error_line integer_text l) w)
                   (Enrich.console_error
                      (Enrich.enrich flaky_service (map Limiter.row_to_js rows)))
                   empty_world)
          | None =>
              {| buckets := buckets empty_world; console := console empty_world;
                 timers := timers empty_world; response := None |}
          end
      | None =>
          {| buckets := buckets empty_world; console := console empty_world;
             timers := timers empty_world; response := None |}
      end.
Proof.
  assert (H : Z.abs (-5) <= 2 ^ 53) by (vm_compute; discriminate).
  split; [exact H|].
  exact (proj1 (integer_limit_round_trip integer_text flaky_service reversing plain_storage
                  false "/tmp" 1700000000000 1700000000400 five_leads empty_world)
           (-5) H).
Defined.

(** ** The enrichment loop, again *)

Lemma enrich_row_log (axios_post : nat -> JSValue -> Enrich.Outcome) (row : Obj)
    (st : Enrich.LoopState) :
  Enrich.console_error (Enrich.enrich_row axios_post row st)
  = Enrich.console_error st ++ logged axios_post (Enrich.calls st) row.
Proof.
  unfold Enrich.enrich_row, logged.
  destruct (Enrich.try_lookup axios_post (Enrich.calls st) row); simpl; [|done].
  by rewrite app_nil_r.
Qed.

Lemma enrich_loop_log (axios_post : nat -> JSValue -> Enrich.Outcome) (limited : list Obj) :
  forall st : Enrich.LoopState,
    Enrich.calls (Enrich.enrich_loop axios_post limited st)
      = (Enrich.calls st + length limited)%nat /\
    Enrich.console_error (Enrich.enrich_loop axios_post limited st)
      = Enrich.console_error st
        ++ concat (imap (fun i row => logged axios_post (Enrich.calls st + i) row) limited).
Proof.
  induction limited as [|row rest IH]; intros st; simpl.
  - split; [lia|by rewrite app_nil_r].
  - destruct (IH (Enrich.enrich_row axios_post row st)) as [-> ->].
    rewrite enrich_row_log. destruct (enrich_row_spec axios_post row st) as [_ ->].
    split; [lia|]. rewrite <- app_assoc, Nat.add_0_r. do 3 f_equal.
    apply imap_ext. intros i x _. simpl. f_equal. lia.
Qed.

Lemma logged_length (axios_post : nat -> JSValue -> Enrich.Outcome) (limited : list Obj) :
  forall n : nat,
    (length (concat (imap (fun i row => logged axios_post (n + i) row) limited))
     <= length limited)%nat.
Proof.
  induction limited as [|row rest IH]; intros n; simpl; [lia|].
  rewrite length_app.
  assert (Hone : (length (logged axios_post (n + 0) row) <= 1)%nat).
  { unfold logged. destruct (Enrich.try_lookup _ _ _); simpl; lia. }
  specialize (IH (S n)).
  rewrite (imap_ext _ (fun i row => logged axios_post (S n + i) row)).
  - lia.
  - intros i x _. simpl. f_equal. lia.
Qed.

Lemma try_lookup_failure (axios_post : nat -> JSValue -> Enrich.Outcome) (n : nat)
    (row : Obj) :
  match Enrich.try_lookup axios_post n row with
  | Normal _ => lookup_failure (axios_post n (get "linkedin" row)) = None
  | Throw message => lookup_failure (axios_post n (get "linkedin" row)) = Some message
  end.
Proof.
  unfold Enrich.try_lookup, lookup_failure.
  destruct (axios_post n (get "linkedin" row)) as [m|response]; [done|].
  destruct response as [| | | | | |o]; try done.
  cbn [member]. by destruct (get "data" o).
Qed.

Lemma logged_failure (axios_post : nat -> JSValue -> Enrich.Outcome) (i : nat) (row : Obj) :
  logged axios_post i row
  = match lookup_failure (axios_post i (get "linkedin" row)) with
    | Some message =>
        [{| Enrich.line_id := get "linkedin" row; Enrich.line_message := message |}]
    | None => []
    end.
Proof.
  unfold logged. pose proof (try_lookup_failure axios_post i row) as H.
  destruct (Enrich.try_lookup axios_post i row); by rewrite H.
Qed.

(** The loop issues one request per retained row: the [i]-th request carries
    the [linkedin] of the [i]-th row, and what the console gets is decided
    by the outcomes of these requests, row after row: one line, with the
    row's [linkedin] and the message, for a request that was rejected or
    whose response cannot be read ([response.data.phone] throws on a
    response, or a [data], that is [null] or [undefined]), and nothing for
    the others. *)
Theorem enrichment_requests_and_log :
  forall (axios_post : nat -> JSValue -> Enrich.Outcome) (limited : list Obj),
    Enrich.calls (Enrich.enrich axios_post limited) = length limited /\
    Enrich.console_error (Enrich.enrich axios_post limited)
      = concat
          (imap (fun (i : nat) (row : Obj) =>
                   match lookup_failure (axios_post i (get "linkedin" row)) with
                   | Some message =>
                       [{| Enrich.line_id := get "linkedin" row;
                           Enrich.line_message := message |}]
                   | None => []
                   end)
             limited) /\
    (length (Enrich.console_error (Enrich.enrich axios_post limited)) <= length limited)%nat.
Proof.
  intros axios_post limited. unfold Enrich.enrich.
  destruct (enrich_loop_log axios_post limited
              {| Enrich.calls := 0; Enrich.console_error := []; Enrich.results := [] |})
    as [Hc Hl].
  rewrite Hc, Hl. simpl. split; [done|]. split.
  - f_equal. apply imap_ext. intros i row _. apply logged_failure.
  - apply (logged_length axios_post limited 0).
Qed.

Lemma try_lookup_normal (axios_post : nat -> JSValue -> Enrich.Outcome) (n : nat) (row : Obj)
    (phone : JSValue) :
  Enrich.try_lookup axios_post n row = Normal phone ->
  exists raw, phone = Phone.cleanPhoneNumber raw.
Proof.
  unfold Enrich.try_lookup.
  destruct (axios_post n (get "linkedin" row)) as [m|response]; [discriminate|].
  destruct (member response "data") as [data|m]; [|discriminate].
  destruct (member data "phone") as [rawPhone|m]; [|discriminate].
  intros [= <-]. eauto.
Qed.

Lemma cleaned_not_sentinel (raw : JSValue) :
  exists r, Phone.cleanPhoneNumber raw = JStr r /\
            r <> "Not Found" /\
            (r = "Error" \/ string_forall digit_or_plus r = true).
Proof.
  rewrite cleanPhoneNumber_unwrapped.
  destruct (Phone.unwrapped raw) as [| | | |s| |];
    try (exists "Error"; split; [reflexivity|split; [discriminate|by left]]).
  eexists. split; [reflexivity|].
  pose proof (cleaned_digits_and_plus s) as H. split; [|by right].
  intros Heq. rewrite Heq in H. discriminate H.
Qed.

(** Every [phonenumber] the loop writes is [Not Found], [Error], or a text
    of digits and plus signs (possibly empty); it is [Not Found] exactly
    when the request of that row was rejected or its response could not be
    read: a response, or a [data], that is [null] or [undefined]. *)
Theorem phonenumber_values :
  forall (axios_post : nat -> JSValue -> Enrich.Outcome) (limited : list Obj) (i : nat)
         (row : Obj),
    limited !! i = Some row ->
    exists (out : Obj) (phone : string),
      Enrich.results (Enrich.enrich axios_post limited) !! i = Some out /\
      get "phonenumber" out = JStr phone /\
      (phone = "Not Found" \/ phone = "Error" \/ string_forall digit_or_plus phone = true) /\
      (phone = "Not Found" <-> lookup_failure (axios_post i (get "linkedin" row)) <> None).
Proof.
  intros axios_post limited i row Hrow.
  rewrite enrich_results, list_lookup_imap, Hrow. simpl.
  unfold enriched, phone_for.
  pose proof (try_lookup_failure axios_post i row) as Hfail.
  destruct (Enrich.try_lookup axios_post i row) as [p|m] eqn:Htry.
  - destruct (try_lookup_normal _ _ _ _ Htry) as [raw ->].
    destruct (cleaned_not_sentinel raw) as (r & Hr & Hne & Hcases).
    exists (set "phonenumber" (Phone.cleanPhoneNumber raw) row), r.
    split; [done|]. rewrite get_set_eq. split; [done|]. split; [by right|].
    rewrite Hfail. split; [done|]. intros H. by destruct H.
  - exists (set "phonenumber" (JStr "Not Found") row), "Not Found".
    split; [done|]. rewrite get_set_eq. split; [done|]. split; [by left|].
    rewrite Hfail. split; [discriminate|done].
Qed.

Lemma phonenumber_values_witness :
  [ [("company", JStr "A"); ("linkedin", JStr "in/a")];
    [("company", JStr "B"); ("linkedin", JStr "in/b")] ] !! 1%nat
  = Some [("company", JStr "B"); ("linkedin", JStr "in/b")] /\
  exists (out : Obj) (phone : string),
    Enrich.results
      (Enrich.enrich (fun _ _ => Enrich.Resolved (JObj [("status", int 200); ("data", JNull)]))
         [ [("company", JStr "A"); ("linkedin", JStr "in/a")];
           [("company", JStr "B"); ("linkedin", JStr "in/b")] ]) !! 1%nat = Some out /\
    get "phonenumber" out = JStr phone /\
    (phone = "Not Found" \/ phone = "Error" \/ string_forall digit_or_plus phone = true) /\
    (phone = "Not Found" <->
     lookup_failure
       ((fun (_ : nat) (_ : JSValue) =>
           Enrich.Resolved (JObj [("status", int 200); ("data", JNull)]))
          1%nat (get "linkedin" [("company", JStr "B"); ("linkedin", JStr "in/b")]))
     <> None).
Proof.
  split; [reflexivity|].
  apply (phonenumber_values
           (fun _ _ => Enrich.Resolved (JObj [("status", int 200); ("data", JNull)]))
           [ [("company", JStr "A"); ("linkedin", JStr "in/a")];
             [("company", JStr "B"); ("linkedin", JStr "in/b")] ] 1%nat
           [("company", JStr "B"); ("linkedin", JStr "in/b")]).
  reflexivity.
Defined.

(** The columns of a serialised row: those of the retained row in their
    order, [rn] left out, with [phonenumber] in its place when the retained
    row already had that column and last otherwise. *)
Theorem serialised_columns :
  forall (nts : JSNumber -> string) (axios_post : nat -> JSValue -> Enrich.Outcome)
         (limited : list Obj) (i : nat) (row : Obj),
    limited !! i = Some row ->
    exists out : Obj,
      Enrich.results (Enrich.enrich axios_post limited) !! i = Some out /\
      keys out = with_phonenumber_key row /\
      keys (Csv.safe_row nts out) = List.filter not_rn (with_phonenumber_key row).
Proof.
  intros nts axios_post limited i row Hrow.
  rewrite enrich_results, list_lookup_imap, Hrow. simpl.
  eexists. split; [reflexivity|].
  assert (Hkeys : keys (enriched axios_post i row) = with_phonenumber_key row).
  { unfold enriched. apply keys_set. }
  split; [exact Hkeys|].
  unfold Csv.safe_row. rewrite keys_set.
  assert (Hhas : has "phonenumber" (rest_without "rn" (enriched axios_post i row)) = true).
  { apply has_keys. rewrite keys_rest_without_filter. apply filter_In.
    split; [|reflexivity]. unfold enriched. apply keys_set_new. }
  by rewrite Hhas, keys_rest_without_filter, Hkeys.
Qed.

Lemma serialised_columns_witness :
  three_rows !! 0%nat = Some [("company", JStr "A"); ("linkedin", JStr "in/a"); ("rn", int 1)] /\
  exists out : Obj,
    Enrich.results (Enrich.enrich flaky_service three_rows) !! 0%nat = Some out /\
    keys out
      = with_phonenumber_key [("company", JStr "A"); ("linkedin", JStr "in/a"); ("rn", int 1)] /\
    keys (Csv.safe_row integer_text out)
      = List.filter not_rn
          (with_phonenumber_key
             [("company", JStr "A"); ("linkedin", JStr "in/a"); ("rn", int 1)]).
Proof.
  split; [reflexivity|].
  apply (serialised_columns integer_text flaky_service three_rows 0%nat). reflexivity.
Defined.

(** ** The windowed limit, again *)

(** On a table that has the columns [company] and [linkedin] and no column
    [rn], whatever order the engine works in, the query is accepted and,
    for every company [G] and limit [N], the rows of company [G] in the
    result are at most [N]: they are [min N] (the number of rows of [G])
    rows of the company, each followed by its [rn], which counts from 1 in
    ascending order of [linkedin]; the company's rows are these rows plus
    others, none of which goes before any of them. *)
Theorem limiter_keeps_n_smallest :
  forall (engine : Limiter.Engine) (uploaded : Limiter.Table) (G : Limiter.SqlVal) (N : Z),
    Limiter.has_column "company" (Limiter.columns uploaded) = true ->
    Limiter.has_column "linkedin" (Limiter.columns uploaded) = true ->
    Limiter.has_column "rn" (Limiter.columns uploaded) = false ->
    exists out kept others : list Limiter.SqlRow,
      Limiter.limited_query engine N uploaded = Some out /\
      Permutation
        (List.filter (fun r => bool_decide (Limiter.column "company" r = G)) out)
        (imap (fun (i : nat) (r : Limiter.SqlRow) =>
                 r ++ [("rn", Limiter.SqlInt (Z.of_nat i + 1))]) kept) /\
      (length (List.filter (fun r => bool_decide (Limiter.column "company" r = G)) out)
       <= Z.to_nat N)%nat /\
      length kept
      = Nat.min (Z.to_nat N)
          (length (List.filter (fun r => bool_decide (Limiter.column "company" r = G))
                     (Limiter.named uploaded))) /\
      Permutation
        (List.filter (fun r => bool_decide (Limiter.column "company" r = G))
           (Limiter.named uploaded))
        (kept ++ others) /\
      StronglySorted
        (fun a b => ascending (Limiter.column "linkedin" a) (Limiter.column "linkedin" b))
        kept /\
      (forall a b, In a kept -> In b others ->
         ascending (Limiter.column "linkedin" a) (Limiter.column "linkedin" b)).
Proof.
  intros engine uploaded G N Hc Hl Hrn.
  change (fun r => bool_decide (Limiter.column "company" r = G))
    with (Limiter.in_partition "company" G).
  set (group := List.filter (Limiter.in_partition "company" G) (Limiter.named uploaded)).
  set (sorted := sort (Limiter.order_by "linkedin") (Limiter.arrange engine group)).
  assert (Hsorted : Permutation sorted group) by apply sorted_partition_perm.
  exists (Limiter.emit engine
            (map Limiter.with_rn
               (List.filter (fun p => snd p <=? N)
                  (Limiter.row_number_over engine "company" "linkedin"
                     (Limiter.named uploaded))))),
    (take (Z.to_nat N) sorted), (drop (Z.to_nat N) sorted).
  split; [by apply limited_query_accepted|].
  assert (Hlen : length (take (Z.to_nat N) sorted) = Nat.min (Z.to_nat N) (length group)).
  { by rewrite length_take, (Permutation_length Hsorted). }
  assert (Hgroup :
            Permutation
              (List.filter (Limiter.in_partition "company" G)
                 (Limiter.emit engine
                    (map Limiter.with_rn
                       (List.filter (fun p => snd p <=? N)
                          (Limiter.row_number_over engine "company" "linkedin"
                             (Limiter.named uploaded))))))
              (imap (fun (i : nat) (r : Limiter.SqlRow) =>
                       r ++ [("rn", Limiter.SqlInt (Z.of_nat i + 1))])
                 (take (Z.to_nat N) sorted))).
  { rewrite (filter_permutation _ _ _ (Limiter.emit_perm engine _)).
    rewrite filter_map_comm.
    rewrite (filter_same_in _ (fun p => Limiter.in_partition "company" G (fst p))).
    - rewrite numbered_group. fold group sorted. by rewrite number_from_imap.
    - intros p _. unfold Limiter.in_partition, Limiter.with_rn.
      by rewrite column_app_other by reflexivity. }
  split; [exact Hgroup|]. split.
  { rewrite (Permutation_length Hgroup), length_imap, Hlen. lia. }
  split; [exact Hlen|]. split.
  { rewrite take_drop. by symmetry. }
  split.
  - eapply StronglySorted_weaken;
      [intros a b Hab; apply sql_leb_ascending, order_by_before; exact Hab|].
    apply (StronglySorted_app_1_l _ _ (drop (Z.to_nat N) sorted)).
    rewrite take_drop. apply sort_sorted; [apply order_by_total|apply order_by_trans].
  - intros a b Ha Hb. apply sql_leb_ascending, order_by_before.
    eapply (sort_take_drop (Limiter.order_by "linkedin"));
      [apply order_by_total|apply order_by_trans|exact Ha|exact Hb].
Qed.

Lemma limiter_keeps_n_smallest_witness :
  Limiter.has_column "company" (Limiter.columns five_rows) = true /\
  Limiter.has_column "linkedin" (Limiter.columns five_rows) = true /\
  Limiter.has_column "rn" (Limiter.columns five_rows) = false /\
  exists out kept others : list Limiter.SqlRow,
    Limiter.limited_query reversing 2 five_rows = Some out /\
    Permutation
      (List.filter (fun r => bool_decide (Limiter.column "company" r = Limiter.SqlStr "A"))
         out)
      (imap (fun (i : nat) (r : Limiter.SqlRow) =>
               r ++ [("rn", Limiter.SqlInt (Z.of_nat i + 1))]) kept) /\
    (length (List.filter
               (fun r => bool_decide (Limiter.column "company" r = Limiter.SqlStr "A")) out)
     <= Z.to_nat 2)%nat /\
    length kept
    = Nat.min (Z.to_nat 2)
        (length (List.filter
                   (fun r => bool_decide (Limiter.column "company" r = Limiter.SqlStr "A"))
                   (Limiter.named five_rows))) /\
    Permutation
      (List.filter (fun r => bool_decide (Limiter.column "company" r = Limiter.SqlStr "A"))
         (Limiter.named five_rows))
      (kept ++ others) /\
    StronglySorted
      (fun a b => ascending (Limiter.column "linkedin" a) (Limiter.column "linkedin" b))
      kept /\
    (forall a b, In a kept -> In b others ->
       ascending (Limiter.column "linkedin" a) (Limiter.column "linkedin" b)).
Proof.
  split; [reflexivity|]. split; [reflexivity|]. split; [reflexivity|].
  apply (limiter_keeps_n_smallest reversing five_rows (Limiter.SqlStr "A") 2); reflexivity.
Defined.

(** A limit that is zero or negative keeps no row at all, whatever the
    table (with the two columns and no column [rn]) and the engine. *)
Theorem limit_not_positive_keeps_nothing :
  forall (engine : Limiter.Engine) (uploaded : Limiter.Table) (N : Z),
    N <= 0 ->
    Limiter.has_column "company" (Limiter.columns uploaded) = true ->
    Limiter.has_column "linkedin" (Limiter.columns uploaded) = true ->
    Limiter.has_column "rn" (Limiter.columns uploaded) = false ->
    Limiter.limited_query engine N uploaded = Some [].
Proof. intros. by apply limited_query_nothing. Qed.

Lemma limit_not_positive_keeps_nothing_witness :
  -5 <= 0 /\
  Limiter.has_column "company" (Limiter.columns five_rows) = true /\
  Limiter.has_column "linkedin" (Limiter.columns five_rows) = true /\
  Limiter.has_column "rn" (Limiter.columns five_rows) = false /\
  Limiter.limited_query reversing (-5) five_rows = Some [].
Proof.
  split; [lia|]. split; [reflexivity|]. split; [reflexivity|]. split; [reflexivity|].
  apply (limit_not_positive_keeps_nothing reversing five_rows (-5)); [lia|reflexivity..].
Defined.

(** On a table without a column [rn], every row the query returns is a row
    of the table followed by its [rn], and that number lies between 1 and
    the limit and does not exceed the number of rows of the same company. *)
Theorem limited_rows_come_from_the_table :
  forall (engine : Limiter.Engine) (uploaded : Limiter.Table) (N : Z)
         (rows : list Limiter.SqlRow) (out : Limiter.SqlRow),
    Limiter.has_column "rn" (Limiter.columns uploaded) = false ->
    Limiter.limited_query engine N uploaded = Some rows ->
    In out rows ->
    exists (r : Limiter.SqlRow) (n : Z),
      In r (Limiter.named uploaded) /\
      out = r ++ [("rn", Limiter.SqlInt n)] /\
      1 <= n <= N /\
      n <= Z.of_nat
             (length (List.filter
                        (fun r' => bool_decide (Limiter.column "company" r'
                                                = Limiter.column "company" r))
                        (Limiter.named uploaded))).
Proof.
  intros engine uploaded N rows out Hrn Hq Hin.
  destruct (limited_query_some _ _ _ _ Hq) as [Hc Hl].
  rewrite limited_query_accepted in Hq by done. injection Hq as <-.
  eapply Permutation_in in Hin; [|apply Limiter.emit_perm].
  apply in_map_iff in Hin as ([r n] & <- & Hp).
  apply filter_In in Hp as [Hp Hle]. simpl in Hle. apply Z.leb_le in Hle.
  apply numbered_row in Hp as [Hr Hn].
  exists r, n. split; [done|]. split; [reflexivity|]. split; [lia|]. apply Hn.
Qed.

Lemma limited_rows_come_from_the_table_witness :
  Limiter.has_column "rn" (Limiter.columns five_rows) = false /\
  Limiter.limited_query reversing 2 five_rows
  = Some [ [("company", Limiter.SqlStr "B"); ("linkedin", Limiter.SqlStr "in/z");
            ("rn", Limiter.SqlInt 2)];
           [("company", Limiter.SqlStr "B"); ("linkedin", Limiter.SqlStr "in/y");
            ("rn", Limiter.SqlInt 1)];
           [("company", Limiter.SqlStr "A"); ("linkedin", Limiter.SqlStr "in/b");
            ("rn", Limiter.SqlInt 2)];
           [("company", Limiter.SqlStr "A"); ("linkedin", Limiter.SqlStr "in/a");
            ("rn", Limiter.SqlInt 1)] ] /\
  exists (r : Limiter.SqlRow) (n : Z),
    In r (Limiter.named five_rows) /\
    [("company", Limiter.SqlStr "A"); ("linkedin", Limiter.SqlStr "in/b");
     ("rn", Limiter.SqlInt 2)] = r ++ [("rn", Limiter.SqlInt n)] /\
    1 <= n <= 2 /\
    n <= Z.of_nat
           (length (List.filter
                      (fun r' => bool_decide (Limiter.column "company" r'
                                              = Limiter.column "company" r))
                      (Limiter.named five_rows))).
Proof.
  split; [reflexivity|]. split; [reflexivity|].
  apply (limited_rows_come_from_the_table reversing five_rows 2
           [ [("company", Limiter.SqlStr "B"); ("linkedin", Limiter.SqlStr "in/z");
              ("rn", Limiter.SqlInt 2)];
             [("company", Limiter.SqlStr "B"); ("linkedin", Limiter.SqlStr "in/y");
              ("rn", Limiter.SqlInt 1)];
             [("company", Limiter.SqlStr "A"); ("linkedin", Limiter.SqlStr "in/b");
              ("rn", Limiter.SqlInt 2)];
             [("company", Limiter.SqlStr "A"); ("linkedin", Limiter.SqlStr "in/a");
              ("rn", Limiter.SqlInt 1)] ]);
    [reflexivity|reflexivity|].
  right. right. left. reflexivity.
Defined.

(** With a limit at least as large as the number of rows of the table
    (which has the two columns and no column [rn]), the query loses no
    row: its result is the table in some order, each row followed by its
    [rn]. *)
Theorem limit_above_table_keeps_all :
  forall (engine : Limiter.Engine) (uploaded : Limiter.Table) (N : Z),
    Z.of_nat (length (Limiter.rows uploaded)) <= N ->
    Limiter.has_column "company" (Limiter.columns uploaded) = true ->
    Limiter.has_column "linkedin" (Limiter.columns uploaded) = true ->
    Limiter.has_column "rn" (Limiter.columns uploaded) = false ->
    exists (out : list Limiter.SqlRow) (numbered : list (Limiter.SqlRow * Z)),
      Limiter.limited_query engine N uploaded = Some out /\
      Permutation out (map (fun p => fst p ++ [("rn", Limiter.SqlInt (snd p))]) numbered) /\
      Permutation (map fst numbered) (Limiter.named uploaded).
Proof.
  intros engine uploaded N HN Hc Hl Hrn.
  exists (Limiter.emit engine
            (map Limiter.with_rn
               (Limiter.row_number_over engine "company" "linkedin"
                  (Limiter.named uploaded)))),
    (Limiter.row_number_over engine "company" "linkedin" (Limiter.named uploaded)).
  split; [|split].
  - rewrite limited_query_accepted by done. do 3 f_equal. apply filter_all.
    intros [r n] Hin. apply numbered_row in Hin as [_ Hn].
    pose proof (List.filter_length_le
                  (Limiter.in_partition "company" (Limiter.column "company" r))
                  (Limiter.named uploaded)) as Hle.
    unfold Limiter.named in Hle at 2. rewrite length_map in Hle.
    simpl. apply Z.leb_le. lia.
  - apply Limiter.emit_perm.
  - apply rows_cover.
Qed.

Lemma limit_above_table_keeps_all_witness :
  Z.of_nat (length (Limiter.rows five_rows)) <= 7 /\
  Limiter.has_column "company" (Limiter.columns five_rows) = true /\
  Limiter.has_column "linkedin" (Limiter.columns five_rows) = true /\
  Limiter.has_column "rn" (Limiter.columns five_rows) = false /\
  exists (out : list Limiter.SqlRow) (numbered : list (Limiter.SqlRow * Z)),
    Limiter.limited_query reversing 7 five_rows = Some out /\
    Permutation out (map (fun p => fst p ++ [("rn", Limiter.SqlInt (snd p))]) numbered) /\
    Permutation (map fst numbered) (Limiter.named five_rows).
Proof.
  assert (H : Z.of_nat (length (Limiter.rows five_rows)) <= 7) by (vm_compute; discriminate).
  split; [exact H|]. split; [reflexivity|]. split; [reflexivity|]. split; [reflexivity|].
  exact (limit_above_table_keeps_all reversing five_rows 7 H eq_refl eq_refl eq_refl).
Defined.

(** ** Publishing, again *)

(** The [finish] handler ends in one of three ways. It redirects to the
    public URL of the uploaded file and schedules the removal of that file
    after 60 s (after the 1 s unlinking of the two local files when cleanup
    is on). Or the upload fails: 500, nothing stored, no timer. Or the
    listing fails: 500, no timer, and the file just uploaded stays in the
    bucket. No other bucket is touched in any case. *)
Theorem publish_outcomes :
  forall (svc : Storage) (shouldCleanup : bool) (filePath outPath : string) (now : Z)
         (fileBuffer : string) (w : World),
    (forall b, b <> Publish.hatch_bucket ->
       buckets (Publish.on_finish svc shouldCleanup filePath outPath now fileBuffer w) b
       = buckets w b) /\
    ((response (Publish.on_finish svc shouldCleanup filePath outPath now fileBuffer w)
        = Some (Redirect (public_url svc (hatch_result now))) /\
      timers (Publish.on_finish svc shouldCleanup filePath outPath now fileBuffer w)
        = timers w ++ publish_timers shouldCleanup filePath outPath now /\
      upload_error svc (hatch_result now) = None /\ list_fails svc = false)
     \/
     (response (Publish.on_finish svc shouldCleanup filePath outPath now fileBuffer w)
        = Some (Send 500 "Failed to upload result.") /\
      timers (Publish.on_finish svc shouldCleanup filePath outPath now fileBuffer w) = timers w /\
      buckets (Publish.on_finish svc shouldCleanup filePath outPath now fileBuffer w)
        Publish.hatch_bucket = buckets w Publish.hatch_bucket /\
      upload_error svc (hatch_result now) <> None)
     \/
     (response (Publish.on_finish svc shouldCleanup filePath outPath now fileBuffer w)
        = Some (Send 500 "Something went wrong.") /\
      timers (Publish.on_finish svc shouldCleanup filePath outPath now fileBuffer w) = timers w /\
      buckets (Publish.on_finish svc shouldCleanup filePath outPath now fileBuffer w)
        Publish.hatch_bucket = stored_after_upload svc now fileBuffer w /\
      upload_error svc (hatch_result now) = None /\ list_fails svc = true)).
Proof.
  intros. unfold Publish.on_finish, storage_list, publish_timers, stored_after_upload.
  fold (hatch_result now).
  destruct (upload_error svc (hatch_result now)) as [e|] eqn:Hup.
  - split; [reflexivity|]. right. left. by repeat split.
  - destruct (list_fails svc) eqn:Hlist.
    + split.
      * intros b Hb. simpl. apply String.eqb_neq in Hb. by rewrite Hb.
      * right. right.
        repeat split; first [reflexivity | simpl; by rewrite String.eqb_refl].
    + split.
      * intros b Hb. apply String.eqb_neq in Hb.
        destruct shouldCleanup; simpl; by rewrite Hb.
      * left.
        destruct shouldCleanup; repeat split;
          first [reflexivity | simpl; by rewrite <- app_assoc].
Qed.

Lemma filter_perm {X : Type} (P : X -> bool) (l l' : list X) :
  Permutation l l' -> Permutation (List.filter P l) (List.filter P l').
Proof.
  induction 1 as [|x l l' _ IH|x y l|l l' l'' _ IH1 _ IH2]; simpl.
  - done.
  - destruct (P x); [by constructor|done].
  - destruct (P x), (P y); try done. apply perm_swap.
  - by rewrite IH1.
Qed.

Lemma put_names_nodup (o : FileObject) (b : Bucket) :
  List.NoDup (map name b) -> List.NoDup (map name (put o b)).
Proof.
  intros Hnd. unfold put. rewrite map_app. simpl.
  apply NoDup_ListNoDup, NoDup_app. split; [|split; [|apply NoDup_singleton]].
  - apply NoDup_ListNoDup. unfold without_name.
    induction b as [|x b IH]; simpl; [constructor|].
    apply NoDup_cons_iff in Hnd as [Hx Hnd].
    destruct (negb (String.eqb (name x) (name o))); simpl; [|by apply IH].
    constructor; [|by apply IH].
    intros Hin. apply Hx. apply in_map_iff in Hin as (y & Hy & Hin).
    apply filter_In in Hin as [Hin _]. rewrite <- Hy. by apply in_map.
  - intros n Hn Hn'. apply list_elem_of_singleton in Hn'. subst n.
    apply list_elem_of_In, in_map_iff in Hn as (y & Hy & Hin).
    apply filter_In in Hin as [_ Hne].
    apply negb_true_iff, String.eqb_neq in Hne. done.
Qed.

Lemma put_length (o : FileObject) (b : Bucket) : (length (put o b) <= S (length b))%nat.
Proof.
  unfold put, without_name. rewrite length_app. simpl.
  pose proof (List.filter_length_le (fun x => negb (String.eqb (name x) (name o))) b). lia.
Qed.

(** Of objects with distinct names, removing by name those of a part
    leaves the other part. *)
Lemma survivors_of_split (svc : Storage) (kept doomed : list FileObject) :
  (forall n, remove_error svc n = None) ->
  List.NoDup (map name (kept ++ doomed)) ->
  List.filter (survives svc doomed) (kept ++ doomed) = kept.
Proof.
  intros Hrm Hnd. rewrite List.filter_app.
  rewrite (filter_all _ kept), (filter_none _ doomed); [by rewrite app_nil_r| |].
  - intros o Ho. unfold survives. apply negb_false_iff, existsb_exists.
    exists o. split; [done|]. rewrite String.eqb_refl, Hrm. reflexivity.
  - intros o Ho. unfold survives. apply negb_true_iff.
    destruct (existsb _ doomed) eqn:E; [|done]. exfalso.
    apply existsb_exists in E as (f & Hf & Heq).
    apply andb_true_iff in Heq as [Heq _]. apply String.eqb_eq in Heq.
    rewrite map_app in Hnd. apply NoDup_ListNoDup, NoDup_app in Hnd as (_ & Hdis & _).
    apply (Hdis (name o)); apply list_elem_of_In.
    + by apply in_map.
    + rewrite <- Heq. by apply in_map.
Qed.

(** Retention in general: when the bucket holds fewer than 100 objects
    with distinct names, the upload and the listing succeed and removals
    work, the bucket afterwards holds exactly the first three of the listing
    in descending order of creation time (all of them when there are fewer
    than three), the uploaded file counted among the candidates; no object
    it lost is more recent than an object it kept. *)
Theorem retention_leaves_three_newest :
  forall (svc : Storage) (shouldCleanup : bool) (filePath outPath : string) (now : Z)
         (fileBuffer : string) (w : World),
    upload_error svc (hatch_result now) = None ->
    list_fails svc = false ->
    (forall n, remove_error svc n = None) ->
    List.NoDup (map name (buckets w Publish.hatch_bucket)) ->
    (length (buckets w Publish.hatch_bucket) < 100)%nat ->
    Permutation
      (buckets (Publish.on_finish svc shouldCleanup filePath outPath now fileBuffer w)
         Publish.hatch_bucket)
      (take 3 (listed_by_date svc now fileBuffer w)) /\
    length (buckets (Publish.on_finish svc shouldCleanup filePath outPath now fileBuffer w)
              Publish.hatch_bucket)
      = Nat.min 3 (length (stored_after_upload svc now fileBuffer w)) /\
    (forall kept gone,
        In kept (buckets (Publish.on_finish svc shouldCleanup filePath outPath now fileBuffer w)
                   Publish.hatch_bucket) ->
        In gone (stored_after_upload svc now fileBuffer w) ->
        ~ In gone (buckets (Publish.on_finish svc shouldCleanup filePath outPath now fileBuffer w)
                     Publish.hatch_bucket) ->
        created_at gone <= created_at kept).
Proof.
  intros svc shouldCleanup filePath outPath now fileBuffer w Hup Hlist Hrm Hnd Hlen.
  destruct (on_finish_published svc shouldCleanup filePath outPath now fileBuffer w Hup Hlist)
    as [_ Hbucket].
  rewrite Hbucket. unfold listed_by_date.
  fold (stored_after_upload svc now fileBuffer w).
  set (stored := stored_after_upload svc now fileBuffer w).
  assert (Hlen' : (length stored <= 100)%nat).
  { pose proof (put_length {| name := hatch_result now; created_at := created_now svc;
                              content := fileBuffer |} (buckets w Publish.hatch_bucket)).
    unfold stored, stored_after_upload. lia. }
  assert (Hnd' : List.NoDup (map name stored)) by by apply put_names_nodup.
  rewrite take_ge by (by rewrite (Permutation_length (sort_perm by_name stored))).
  unfold Publish.beyond_three. rewrite remove_each_spec.
  set (byname := sort by_name stored).
  set (sorted := sort Publish.newest_first byname).
  assert (Hperm : Permutation sorted stored).
  { unfold sorted, byname. by rewrite !sort_perm. }
  assert (Hfinal : Permutation (List.filter (survives svc (drop 3 sorted)) stored)
                     (take 3 sorted)).
  { rewrite (filter_perm _ stored (take 3 sorted ++ drop 3 sorted)).
    - rewrite survivors_of_split; [done|done|].
      rewrite take_drop. eapply Permutation_NoDup; [|exact Hnd'].
      apply Permutation_map. by symmetry.
    - rewrite take_drop. by symmetry. }
  split; [exact Hfinal|]. split.
  - by rewrite (Permutation_length Hfinal), length_take, (Permutation_length Hperm).
  - intros kept gone Hk Hg Hng.
    assert (Hk' : In kept (take 3 sorted)).
    { eapply Permutation_in; [exact Hfinal|exact Hk]. }
    assert (Hgd : In gone (drop 3 sorted)).
    { eapply Permutation_in in Hg; [|symmetry; exact Hperm].
      rewrite <- (take_drop 3 sorted) in Hg. apply in_app_or in Hg as [Hg|Hg]; [|exact Hg].
      exfalso. apply Hng. eapply Permutation_in; [symmetry; exact Hfinal|exact Hg]. }
    pose proof (sort_take_drop Publish.newest_first newest_first_total newest_first_trans
                  3 byname kept gone Hk' Hgd) as H.
    unfold before, Publish.newest_first in H. lia.
Qed.

Lemma retention_leaves_three_newest_witness :
  (upload_error plain_storage (hatch_result 1700000000400) = None /\
   list_fails plain_storage = false /\
   (forall n, remove_error plain_storage n = None) /\
   List.NoDup (map name (buckets three_files Publish.hatch_bucket)) /\
   (length (buckets three_files Publish.hatch_bucket) < 100)%nat) /\
  Permutation
    (buckets (Publish.on_finish plain_storage true "in" "out" 1700000000400 "x" three_files)
       Publish.hatch_bucket)
    (take 3 (listed_by_date plain_storage 1700000000400 "x" three_files)) /\
  length (buckets (Publish.on_finish plain_storage true "in" "out" 1700000000400 "x" three_files)
            Publish.hatch_bucket)
    = Nat.min 3 (length (stored_after_upload plain_storage 1700000000400 "x" three_files)) /\
  (forall kept gone,
      In kept (buckets (Publish.on_finish plain_storage true "in" "out" 1700000000400 "x"
                          three_files) Publish.hatch_bucket) ->
      In gone (stored_after_upload plain_storage 1700000000400 "x" three_files) ->
      ~ In gone (buckets (Publish.on_finish plain_storage true "in" "out" 1700000000400 "x"
                            three_files) Publish.hatch_bucket) ->
      created_at gone <= created_at kept).
Proof.
  assert (Hnd : List.NoDup (map name (buckets three_files Publish.hatch_bucket))).
  { vm_compute. repeat (constructor; [simpl; intuition discriminate|]). constructor. }
  assert (Hlen : (length (buckets three_files Publish.hatch_bucket) < 100)%nat).
  { vm_compute. lia. }
  split.
  - repeat split; try reflexivity; done.
  - exact (retention_leaves_three_newest plain_storage true "in" "out" 1700000000400 "x"
             three_files eq_refl eq_refl (fun _ => eq_refl) Hnd Hlen).
Defined.

(** ** The bulk exports, again *)

Lemma undouble_escape (s : string) :
  undouble (replace_class Csv.is_quote (quote_s +:+ quote_s) s) = s.
Proof.
  induction s as [|c s IH]; [done|]. cbn [replace_class].
  destruct (Csv.is_quote c) eqn:E.
  - change ((quote_s +:+ quote_s) +:+ replace_class Csv.is_quote (quote_s +:+ quote_s) s)
      with (String quote (String quote (replace_class Csv.is_quote (quote_s +:+ quote_s) s))).
    cbn [undouble]. unfold Csv.is_quote in *. rewrite Ascii.eqb_refl, IH.
    apply Ascii.eqb_eq in E. by subst c.
  - cbn [undouble]. by rewrite E, IH.
Qed.

Lemma string_app_inv_tail (a b t : string) : a +:+ t = b +:+ t -> a = b.
Proof.
  intros H.
  assert (Hl : list_ascii_of_string a ++ list_ascii_of_string t
               = list_ascii_of_string b ++ list_ascii_of_string t).
  { assert (Happ : forall x y, list_ascii_of_string (x +:+ y)
                               = list_ascii_of_string x ++ list_ascii_of_string y).
    { intros x y. induction x as [|c x IHx]; [done|].
      change (String c x +:+ y) with (String c (x +:+ y)). simpl. by rewrite IHx. }
    by rewrite <- !Happ, H. }
  apply app_inv_tail in Hl.
  by rewrite <- (string_of_list_ascii_of_string a), Hl, string_of_list_ascii_of_string.
Qed.

(** The quoting of a bulk export cell loses nothing: undoing the doubling
    of the quote characters gives the text back, so two values are written
    as the same cell only when they have the same text. *)
Theorem cell_escape_round_trip :
  forall (nts : JSNumber -> string) (v1 v2 : JSValue),
    (exists body,
        BulkExport.cell nts v1 = Csv.quoted body /\ undouble body = cell_text nts v1) /\
    (BulkExport.cell nts v1 = BulkExport.cell nts v2 -> cell_text nts v1 = cell_text nts v2).
Proof.
  intros nts v1 v2. split.
  - eexists. split; [reflexivity|]. apply undouble_escape.
  - unfold BulkExport.cell, Csv.quoted. intros H.
    change (quote_s +:+ ?x) with (String quote x) in H.
    injection H as H. apply string_app_inv_tail in H.
    fold (cell_text nts v1) (cell_text nts v2) in H.
    by rewrite <- (undouble_escape (cell_text nts v1)), H, undouble_escape.
Qed.

Lemma cell_escape_round_trip_witness :
  BulkExport.cell integer_text JNull = BulkExport.cell integer_text (JStr "") /\
  cell_text integer_text JNull = cell_text integer_text (JStr "").
Proof.
  split; [reflexivity|].
  apply (proj2 (cell_escape_round_trip integer_text JNull (JStr ""))).
  reflexivity.
Defined.





Lemma loop_finite (nts : JSNumber -> string) (prefix : string) (rows : list Obj) (extra : nat) :
  exists st,
    BulkExport.loop nts (BulkExport.range_of rows) prefix
      (S (length rows / 1000) + extra) BulkExport.initial = Some (Normal st) /\
    BulkExport.csvParts st
    = match rows with
      | [] => []
      | first :: _ => BulkExport.header_row first :: map (BulkExport.row_str nts) rows
      end.
Proof.
  destruct (loop_range nts prefix rows (S (length rows / 1000)) 0 [] false)
    as (st & Hloop & _ & Hparts).
  { rewrite drop_0. unfold BulkExport.pageSize.
    pose proof (Nat.mul_succ_div_gt (length rows) 1000). lia. }
  exists st. split; [by apply loop_more_fuel|].
  rewrite drop_0 in Hparts. rewrite Hparts. by destruct rows.
Qed.

(** A leads export that works: for a tenant with at least one row, when
    the upload is accepted, the name is free and the public URL is not
    empty, [GET /export-leads] redirects to that URL, the bucket gains
    exactly one object, named after the tenant and the timestamp, whose
    content is the header line followed by one line per row, and the
    removal of that object is scheduled after 60 s. *)
Theorem export_leads_publishes :
  forall (nts : JSNumber -> string) (svc : Storage) (extra : nat) (first : Obj)
         (rest : list Obj) (c : ascii) (s : string) (timestamp : Z) (w : World),
    upload_error svc (leads_file (String c s) timestamp) = None ->
    has_name (leads_file (String c s) timestamp) (buckets w "leadexports") = false ->
    public_url svc (leads_file (String c s) timestamp) <> "" ->
    exists w' : World,
      BulkExport.get_export_leads nts svc (S (length (first :: rest) / 1000) + extra)
        (BulkExport.range_of (first :: rest)) (Some (String c s)) timestamp w = Some w' /\
      response w' = Some (Redirect (public_url svc (leads_file (String c s) timestamp))) /\
      buckets w' "leadexports"
      = buckets w "leadexports"
        ++ [{| name := leads_file (String c s) timestamp; created_at := created_now svc;
               content := export_text nts (first :: rest) |}] /\
      timers w'
      = timers w ++ [RemoveObject 60000 "leadexports" (leads_file (String c s) timestamp)].
Proof.
  intros nts svc extra first rest c s timestamp w Hup Hfresh Hurl.
  destruct (loop_finite nts "Error fetching leads: " (first :: rest) extra)
    as (st & Hloop & Hparts).
  unfold BulkExport.get_export_leads, BulkExport.export_route, BulkExport.exportLeads.
  cbn [String.eqb]. rewrite Hloop, Hparts.
  unfold BulkExport.upload_and_link, BulkExport.upload_new.
  fold (leads_file (String c s) timestamp). cbn [buckets print].
  rewrite Hup, Hfresh.
  apply String.eqb_neq in Hurl. rewrite Hurl.
  eexists. split; [reflexivity|].
  split; [reflexivity|]. split; [|reflexivity].
  cbn [buckets set_timeout respond print set_bucket]. by rewrite String.eqb_refl.
Qed.

Lemma export_leads_publishes_witness :
  (upload_error plain_storage (leads_file "acme" 1700000000000) = None /\
   has_name (leads_file "acme" 1700000000000) (buckets empty_world "leadexports") = false /\
   public_url plain_storage (leads_file "acme" 1700000000000) <> "") /\
  exists w' : World,
    BulkExport.get_export_leads integer_text plain_storage
      (S (length two_leads / 1000) + 0) (BulkExport.range_of two_leads)
      (Some "acme") 1700000000000 empty_world = Some w' /\
    response w' = Some (Redirect (public_url plain_storage (leads_file "acme" 1700000000000))) /\
    buckets w' "leadexports"
    = buckets empty_world "leadexports"
      ++ [{| name := leads_file "acme" 1700000000000; created_at := created_now plain_storage;
             content := export_text integer_text two_leads |}] /\
    timers w'
    = timers empty_world ++ [RemoveObject 60000 "leadexports" (leads_file "acme" 1700000000000)].
Proof.
  assert (Hurl : public_url plain_storage (leads_file "acme" 1700000000000) <> "")
    by (vm_compute; discriminate).
  split; [repeat split; try reflexivity; exact Hurl|].
  exact (export_leads_publishes integer_text plain_storage 0
           [("id", int 1); ("client_id", JStr "acme");
            ("name", JStr ("Ann " +:+ quote_s +:+ "A" +:+ quote_s))]
           [[("id", int 2); ("client_id", JStr "acme"); ("name", JNull)]]
           "a"%char "cme" 1700000000000 empty_world eq_refl eq_refl Hurl).
Defined.

Lemma fetched_pages_step (select_range : nat -> nat -> BulkExport.FetchResult) (p q : nat) :
  (p < q)%nat ->
  fetched_pages select_range p q
  = served select_range p ++ fetched_pages select_range (S p) q.
Proof.
  intros Hpq. unfold fetched_pages.
  by replace (S (q - p)) with (S (S (q - S p))) by lia.
Qed.

Lemma fetched_pages_one (select_range : nat -> nat -> BulkExport.FetchResult) (p : nat) :
  fetched_pages select_range p p = served select_range p.
Proof. unfold fetched_pages. rewrite Nat.sub_diag. simpl. apply app_nil_r. Qed.

Lemma map_row_str (nts : JSNumber -> string) (data : list Obj) :
  map (BulkExport.row_str nts) data = map (row_line nts) data.
Proof. apply map_ext. intros row. apply row_str_spec. Qed.

(** The pagination loop on any datastore, well behaved or not. When it
    ends normally, the pages it read are those from the page it started on
    to the page it stopped on, none of which failed: every page before the
    last served at least 1000 rows and the last one fewer; and what it
    added to the buffer is the header line of the first row served (unless
    a header had been written, or no row was served) followed by one line
    per row served, in order, so the header is never written twice. When
    it throws, a page failed after pages of at least 1000 rows each, and
    the message is that page's error behind the function's prefix. *)
Theorem loop_on_any_datastore :
  forall (nts : JSNumber -> string) (select_range : nat -> nat -> BulkExport.FetchResult)
         (prefix : string) (fuel : nat) (st0 : BulkExport.LoopState)
         (r : Completion BulkExport.LoopState),
    BulkExport.loop nts select_range prefix fuel st0 = Some r ->
    match r with
    | Normal st =>
        (BulkExport.page st0 <= BulkExport.page st)%nat /\
        (forall p, (BulkExport.page st0 <= p < BulkExport.page st)%nat ->
           (1000 <= length (served select_range p))%nat) /\
        (length (served select_range (BulkExport.page st)) < 1000)%nat /\
        (forall p e, (BulkExport.page st0 <= p <= BulkExport.page st)%nat ->
           select_range (p * 1000)%nat (p * 1000 + 1000 - 1)%nat <> BulkExport.FetchError e) /\
        BulkExport.csvParts st
        = BulkExport.csvParts st0
          ++ (if BulkExport.headersWritten st0 then []
              else match fetched_pages select_range (BulkExport.page st0) (BulkExport.page st)
                   with
                   | [] => []
                   | first :: _ => [header_line first]
                   end)
          ++ map (row_line nts)
               (fetched_pages select_range (BulkExport.page st0) (BulkExport.page st))
    | Throw message =>
        exists (p : nat) (e : string),
          (BulkExport.page st0 <= p)%nat /\
          (forall q, (BulkExport.page st0 <= q < p)%nat ->
             (1000 <= length (served select_range q))%nat) /\
          select_range (p * 1000)%nat (p * 1000 + 1000 - 1)%nat = BulkExport.FetchError e /\
          message = prefix +:+ e
    end.
Proof.
  intros nts select_range prefix fuel.
  induction fuel as [|fuel IH]; intros st0 r; [discriminate|].
  cbn [BulkExport.loop]. unfold BulkExport.loop_body, BulkExport.pageSize.
  destruct (select_range (BulkExport.page st0 * 1000)%nat
              (BulkExport.page st0 * 1000 + 1000 - 1)%nat)
    as [e|[[|first data]|]] eqn:Hsel.
  - intros [= <-]. exists (BulkExport.page st0), e.
    split; [lia|]. split; [intros q Hq; lia|]. by split.
  - intros [= <-].
    assert (Hserved : served select_range (BulkExport.page st0) = [])
      by (unfold served; by rewrite Hsel).
    split; [lia|]. split; [intros p Hp; lia|].
    split; [rewrite Hserved; simpl; lia|]. split.
    + intros p e Hp. assert (p = BulkExport.page st0) as -> by lia. by rewrite Hsel.
    + rewrite fetched_pages_one, Hserved.
      destruct (BulkExport.headersWritten st0); simpl; by rewrite app_nil_r.
  - assert (Hserved : served select_range (BulkExport.page st0) = first :: data)
      by (unfold served; by rewrite Hsel).
    destruct (length (first :: data) <? 1000)%nat eqn:Hlen.
    + intros [= <-]. cbn [BulkExport.page BulkExport.csvParts].
      apply Nat.ltb_lt in Hlen.
      split; [lia|]. split; [intros p Hp; lia|].
      split; [by rewrite Hserved|]. split.
      * intros p e Hp. assert (p = BulkExport.page st0) as -> by lia. by rewrite Hsel.
      * rewrite fetched_pages_one, Hserved, ?map_row_str, ?row_str_spec.
        destruct (BulkExport.headersWritten st0); [done|by rewrite <- app_assoc].
    + apply Nat.ltb_ge in Hlen. intros Hrun. apply IH in Hrun.
      cbn [BulkExport.page BulkExport.csvParts BulkExport.headersWritten] in Hrun.
      destruct r as [st|message].
      * destruct Hrun as (Hpage & Hfull & Hshort & Hok & Hparts).
        split; [lia|]. split.
        { intros p Hp. destruct (decide (p = BulkExport.page st0)) as [->|Hne].
          - by rewrite Hserved.
          - apply Hfull. lia. }
        split; [exact Hshort|]. split.
        { intros p e Hp. destruct (decide (p = BulkExport.page st0)) as [->|Hne].
          - by rewrite Hsel.
          - apply Hok. lia. }
        rewrite Hparts. rewrite (fetched_pages_step select_range (BulkExport.page st0))
          by lia.
        rewrite Hserved, ?map_row_str, ?row_str_spec.
        rewrite (map_app (row_line nts) (first :: data)).
        destruct (BulkExport.headersWritten st0); cbn [app map]; by rewrite <- ?app_assoc.
      * destruct Hrun as (p & e & Hp & Hfull & Herr & Hmsg).
        exists p, e. split; [lia|]. split; [|by split].
        intros q Hq. destruct (decide (q = BulkExport.page st0)) as [->|Hne].
        -- by rewrite Hserved.
        -- apply Hfull. lia.
  - intros [= <-].
    assert (Hserved : served select_range (BulkExport.page st0) = [])
      by (unfold served; by rewrite Hsel).
    split; [lia|]. split; [intros p Hp; lia|].
    split; [rewrite Hserved; simpl; lia|]. split.
    + intros p e Hp. assert (p = BulkExport.page st0) as -> by lia. by rewrite Hsel.
    + rewrite fetched_pages_one, Hserved.
      destruct (BulkExport.headersWritten st0); simpl; by rewrite app_nil_r.
Qed.

Lemma loop_on_any_datastore_witness :
  exists st : BulkExport.LoopState,
    BulkExport.loop integer_text (BulkExport.range_of two_leads) "Error fetching leads: " 1
      BulkExport.initial
    = Some (Normal st) /\
    BulkExport.page st = 0%nat /\
    served (BulkExport.range_of two_leads) 0 = two_leads /\
    BulkExport.csvParts st
    = BulkExport.csvParts BulkExport.initial
      ++ (if BulkExport.headersWritten BulkExport.initial then []
          else match fetched_pages (BulkExport.range_of two_leads)
                       (BulkExport.page BulkExport.initial) (BulkExport.page st)
               with
               | [] => []
               | first :: _ => [header_line first]
               end)
      ++ map (row_line integer_text)
           (fetched_pages (BulkExport.range_of two_leads)
              (BulkExport.page BulkExport.initial) (BulkExport.page st)).
Proof.
  eexists. split; [reflexivity|]. split; [reflexivity|]. split; [reflexivity|].
  exact (proj2 (proj2 (proj2 (proj2
           (loop_on_any_datastore integer_text (BulkExport.range_of two_leads)
              "Error fetching leads: " 1 BulkExport.initial _ eq_refl))))).
Defined.

Lemma loop_error_after (nts : JSNumber -> string)
    (select_range : nat -> nat -> BulkExport.FetchResult) (prefix e : string) (extra : nat) :
  forall (k p0 : nat) (parts : list string) (hw : bool),
    (forall p, (p0 <= p < p0 + k)%nat ->
       exists first data,
         select_range (p * BulkExport.pageSize)%nat (p * BulkExport.pageSize + BulkExport.pageSize - 1)%nat
         = BulkExport.FetchData (Some (first :: data)) /\
         (BulkExport.pageSize <= length (first :: data))%nat) ->
    select_range ((p0 + k) * BulkExport.pageSize)%nat
      ((p0 + k) * BulkExport.pageSize + BulkExport.pageSize - 1)%nat
    = BulkExport.FetchError e ->
    BulkExport.loop nts select_range prefix (S k + extra)
      {| BulkExport.page := p0; BulkExport.csvParts := parts; BulkExport.headersWritten := hw |}
    = Some (Throw (prefix +:+ e)).
Proof.
  induction k as [|k IH]; intros p0 parts hw Hfull Herr.
  - cbn [BulkExport.loop Nat.add]. unfold BulkExport.loop_body. cbn [BulkExport.page].
    rewrite Nat.add_0_r in Herr. by rewrite Herr.
  - change (S (S k) + extra)%nat with (S (S k + extra)).
    cbn [BulkExport.loop]. unfold BulkExport.loop_body. cbn [BulkExport.page].
    destruct (Hfull p0) as (first & data & Hsel & Hlen); [lia|].
    rewrite Hsel. apply Nat.ltb_ge in Hlen. rewrite Hlen.
    apply IH.
    + intros p Hp. apply Hfull. lia.
    + by replace (S p0 + k)%nat with (p0 + S k)%nat by lia.
Qed.

(** An error on a later page discards the pages already read: when the
    datastore serves [k] full pages and fails on the next one,
    [GET /export-leads] answers 500, logs the Error that carries the fetch
    error, uploads nothing and schedules nothing. *)
Theorem export_error_discards_pages :
  forall (nts : JSNumber -> string) (svc : Storage)
         (select_range : nat -> nat -> BulkExport.FetchResult) (e : string) (k extra : nat)
         (c : ascii) (s : string) (timestamp : Z) (w : World),
    (forall p, (p < k)%nat ->
       exists first data,
         select_range (p * BulkExport.pageSize)%nat (p * BulkExport.pageSize + BulkExport.pageSize - 1)%nat
         = BulkExport.FetchData (Some (first :: data)) /\
         (BulkExport.pageSize <= length (first :: data))%nat) ->
    select_range (k * BulkExport.pageSize)%nat (k * BulkExport.pageSize + BulkExport.pageSize - 1)%nat
    = BulkExport.FetchError e ->
    BulkExport.get_export_leads nts svc (S k + extra) select_range (Some (String c s))
      timestamp w
    = Some {| buckets := buckets w;
              console := console w
                         ++ [ErrorObject "Export failed:" "Error"
                               ("Error fetching leads: " +:+ e)];
              timers := timers w;
              response := Some (SendJson 500 "Export failed") |}.
Proof.
  intros nts svc select_range e k extra c s timestamp w Hfull Herr.
  unfold BulkExport.get_export_leads, BulkExport.export_route, BulkExport.exportLeads.
  cbn [String.eqb]. unfold BulkExport.initial.
  rewrite (loop_error_after nts select_range "Error fetching leads: " e extra k 0 [] false).
  - reflexivity.
  - intros p Hp. apply Hfull. lia.
  - exact Herr.
Qed.

Lemma export_error_discards_pages_witness :
  ((forall p, (p < 1)%nat ->
      exists first data,
        failing_after_one_page (p * BulkExport.pageSize)%nat
          (p * BulkExport.pageSize + BulkExport.pageSize - 1)%nat
        = BulkExport.FetchData (Some (first :: data)) /\
        (BulkExport.pageSize <= length (first :: data))%nat) /\
   failing_after_one_page (1 * BulkExport.pageSize)%nat
     (1 * BulkExport.pageSize + BulkExport.pageSize - 1)%nat
   = BulkExport.FetchError "connection reset") /\
  BulkExport.get_export_leads integer_text plain_storage (S 1 + 0) failing_after_one_page
    (Some "acme") 1700000000000 empty_world
  = Some {| buckets := buckets empty_world;
            console := console empty_world
                       ++ [ErrorObject "Export failed:" "Error"
                             ("Error fetching leads: " +:+ "connection reset")];
            timers := timers empty_world;
            response := Some (SendJson 500 "Export failed") |}.
Proof.
  assert (Hfull : forall p, (p < 1)%nat ->
            exists first data,
              failing_after_one_page (p * BulkExport.pageSize)%nat
                (p * BulkExport.pageSize + BulkExport.pageSize - 1)%nat
              = BulkExport.FetchData (Some (first :: data)) /\
              (BulkExport.pageSize <= length (first :: data))%nat).
  { intros p Hp. assert (p = 0)%nat as -> by lia.
    exists [("id", int 7)], (repeat [("id", int 7)] 999). split; [reflexivity|].
    cbn [length]. rewrite repeat_length. unfold BulkExport.pageSize. lia. }
  assert (Herr : failing_after_one_page (1 * BulkExport.pageSize)%nat
                   (1 * BulkExport.pageSize + BulkExport.pageSize - 1)%nat
                 = BulkExport.FetchError "connection reset") by reflexivity.
  split; [split; [exact Hfull|exact Herr]|].
  exact (export_error_discards_pages integer_text plain_storage failing_after_one_page
           "connection reset" 1 0 "a"%char "cme" 1700000000000 empty_world Hfull Herr).
Defined.

(** ** The upload route from end to end *)









